(** * gotel: the HTTP API of the dead man's switch monitor (api.go)

    A shallow embedding of [api.go]: the request handlers, the two
    validators and the read paths [getReservations] and [getNodes], with
    the relational store, the peer network and the wall clock passed
    explicitly.  Calls on the package logger [l] are left out: they touch
    neither the store nor the reply. *)

From stdpp Require Import base option list strings gmap sorting.
From Stdlib Require Import ZArith Lia.

Local Open Scope string_scope.
Local Open Scope list_scope.
Local Open Scope Z_scope.

(** ** Go values *)

(** A Go [(T, error)] pair: either the value with a nil error, or the
    error (the value is then nil and never read by a caller). *)
Inductive result (A : Type) : Type :=
| Ok (a : A)
| Err (e : string).
Arguments Ok {A} a.
Arguments Err {A} e.

(** Go's [error] as returned by the validators: [None] is [nil]. *)
Definition error := option string.

(** [sql.NullString], the scan destination for a nullable text column. *)
Record NullString := { String_ : string; Valid : bool }.

(** [NullString.Scan]: SQL NULL leaves the empty string and [Valid = false]. *)
Definition scan_NullString (cell : option string) : NullString :=
  match cell with
  | None => {| String_ := ""; Valid := false |}
  | Some s => {| String_ := s; Valid := true |}
  end.

(** ** Structs

    [api.go] declares [node]; [reservation], [checkin], [snooze] and
    [checkOut] are declared elsewhere in the package.  Go's [int] and
    [int64] are read as integers: no arithmetic of [api.go] can leave
    their range. *)

Record node := {
  ID : Z;
  IPAddress : string;
  NodeID : Z;
  IsCoordinator : bool
}.

(** Modelled from the spec: the struct [reservation], declared outside
    [api.go], with the fields [getReservations] scans and sets and
    [validateReservation] reads. *)
Record reservation := {
  JobID : Z;
  App : string;
  Component : string;
  Owner : string;
  Notify : string;
  AlertMessage : string;
  Frequency : Z;
  TimeUnits : string;
  LastCheckin : Z;
  NumCheckins : Z;
  TimeSinceLastCheckin : string;
  LastCheckinStr : string;
  FailingSLA : bool
}.

(** Modelled from the spec: the struct [checkin], declared outside
    [api.go]: the pair that checks in. *)
Record checkin := { ci_App : string; ci_Component : string }.

(** Modelled from the spec: the struct [snooze], declared outside
    [api.go]: the pair, and the duration and unit [validateSnooze] reads. *)
Record snooze := {
  sn_App : string;
  sn_Component : string;
  sn_Duration : Z;
  sn_TimeUnits : string
}.

(** Modelled from the spec: the struct [checkOut], declared outside
    [api.go]: the pair that checks out. *)
Record checkOut := { co_App : string; co_Component : string }.

(** ** Validation *)

(** [var validTimeUnits = map[string]int{"seconds": 1, "minutes": 1, "hours": 1}] *)
Definition validTimeUnits : gmap string Z :=
  {[ "seconds" := 1; "minutes" := 1; "hours" := 1 ]}.

Definition validateSnooze (snooze : snooze) : error :=
  match validTimeUnits !! sn_TimeUnits snooze with
  | None => Some "Invalid time_units passed in"
  | Some _ =>
      if sn_Duration snooze =? 0 then Some "" else None
  end.

Definition validateReservation (res : reservation) : error :=
  let timeUnits : gmap string Z :=
    {[ "seconds" := 1; "minutes" := 1; "hours" := 1 ]} in
  match timeUnits !! TimeUnits res with
  | None => Some "Invalid time_units passed in"
  | Some _ => None
  end.

(** The recognised units, as a decidable predicate on the wire string. *)
Definition recognised (u : string) : Prop :=
  u = "seconds" \/ u = "minutes" \/ u = "hours".

(** ** The store

    The relational store behind [ge.Db].  A table is the list of its
    rows. *)

(** The columns of table [reservations] that [getReservations] selects.
    [alert_msg] is the one column scanned into a [sql.NullString], hence
    nullable. *)
Record reservation_row := {
  id : Z;
  app : string;
  component : string;
  owner : string;
  notify : string;
  alert_msg : option string;
  frequency : Z;
  time_units : string;
  last_checkin_timestamp : Z;
  num_checkins : Z
}.

(** The columns of table [nodes] that [getNodes] selects. *)
Record node_row := { n_id : Z; ip_address : string; node_id : Z }.

(** Modelled from the spec: a stored snooze, written outside [api.go]:
    the request and the instant it was issued at. *)
Record snooze_row := {
  z_app : string;
  z_component : string;
  z_issued : Z;
  z_duration : Z;
  z_time_units : string
}.

(** Modelled from the spec: an entry of the housekeeping log, written
    outside [api.go]. *)
Record housekeeping_row := { h_app : string; h_component : string; h_at : Z }.

Record database := {
  reservations : list reservation_row;
  snoozes : list snooze_row;
  nodes : list node_row;
  housekeeping : list housekeeping_row
}.

(** ** The world outside the process *)

(** The statements the handlers send through the store functions. *)
Inductive store_op :=
| OpStoreReservation
| OpStoreCheckin
| OpLogHouseKeeping
| OpStoreSnooze
| OpStoreCheckOut.

(** What [http.Get] followed by [ioutil.ReadAll] hands back. *)
Inductive http_result :=
| GetErr                                              (* err != nil *)
| GetResp (StatusCode : Z) (body : string) (read_err : bool).

(** Everything a request observes and does not own: the clock (read as
    one instant for the whole request), the peers, the failures of the
    store driver, and the two formatters of package [time] and of the
    time utilities. *)
Record world := {
  clock : Z;                          (* time.Now().UTC().Unix() *)
  http_get : string -> http_result;   (* by URL *)
  query_err : bool;                   (* Db.Query returns an error *)
  scan_err : nat -> bool;             (* rows.Scan fails on the i-th row *)
  exec_err : store_op -> bool;        (* the statement is refused *)
  humanize : Z -> string;             (* "3 minutes" for 180 *)
  rfc1123 : Z -> string               (* time.Unix(t, 0).Format(time.RFC1123) *)
}.

(** A driver that never fails. *)
Definition healthy (w : world) : Prop :=
  query_err w = false /\ (forall i, scan_err w i = false).

(** ** Time utilities and the SLA evaluator *)

(** Modelled from the spec: the seconds in one unit (the multiplier of
    [frequency] and [duration]), defined outside [api.go].  As a Go map
    it answers 0 for a key it does not hold. *)
Definition unitTable : gmap string Z :=
  {[ "seconds" := 1; "minutes" := 60; "hours" := 3600 ]}.

Definition unitSeconds (timeUnits : string) : Z :=
  default 0 (unitTable !! timeUnits).

(** Modelled from the spec: [RelTime], defined outside [api.go]: the
    relative-time rendering of the time elapsed from [a] to [b],
    suffixed with the label [albl]; a negative elapsed time is clamped
    to "just now". *)
Definition RelTime (w : world) (a b : Z) (albl blbl : string) : string :=
  let elapsed := b - a in
  if elapsed <? 0 then "just now"
  else humanize w elapsed +:+ " " +:+ albl.

(** Modelled from the spec: the expiry instant of a snooze, issue time +
    duration * unit. *)
Definition expiry (s : snooze_row) : Z :=
  z_issued s + z_duration s * unitSeconds (z_time_units s).

(** Modelled from the spec: a snooze is active for a reservation at
    [now] when it names the same pair and its expiry instant is after
    [now]. *)
Definition suppresses (res : reservation) (now : Z) (s : snooze_row) : bool :=
  String.eqb (z_app s) (App res) && String.eqb (z_component s) (Component res)
  && (now <? expiry s).

(** Modelled from the spec: an active snooze for the pair, when the
    table holds one. *)
Definition activeSnooze (tbl : list snooze_row) (res : reservation) (now : Z)
  : option snooze_row :=
  find (suppresses res now) tbl.

(** Modelled from the spec: the result of [Evaluate]. *)
Record evaluation := { failing : bool; elapsed : Z; elapsedPhrase : string }.

(** Modelled from the spec: the SLA evaluator of section 4.1, defined
    outside [api.go] (its entry point there is [FailsSLA]).
    [allowedGap = frequency * unitSeconds(timeUnits)],
    [elapsed = now - lastCheckinTimestamp]; an active snooze for the pair
    suppresses the failure; a negative elapsed time is not failing;
    otherwise failing is [elapsed > allowedGap]. *)
Definition Evaluate (w : world) (res : reservation)
    (snoozed : option snooze_row) (now : Z) : evaluation :=
  let allowedGap := Frequency res * unitSeconds (TimeUnits res) in
  let elapsed := now - LastCheckin res in
  let suppressed :=
    match snoozed with
    | Some s => suppresses res now s
    | None => false
    end in
  {| failing :=
       if suppressed then false
       else if elapsed <? 0 then false
       else elapsed >? allowedGap;
     elapsed := elapsed;
     elapsedPhrase := RelTime w (LastCheckin res) now "ago" "" |}.

(** Modelled from the spec: [FailsSLA], defined outside [api.go]: the
    failing flag of the evaluator, at the current instant and with the
    snooze the store holds for the pair. *)
Definition FailsSLA (w : world) (db : database) (res : reservation) : bool :=
  failing (Evaluate w res (activeSnooze (snoozes db) res (clock w)) (clock w)).

(** ** The store functions

    [storeReservation], [storeCheckin], [logHouseKeeping], [storeSnooze]
    and [storeCheckOut] are defined outside [api.go].  Each takes the
    handle [ge.Db] and returns an error the handler inspects; a refused
    statement leaves the store as it was. *)

Definition same_pair (a c : string) (r : reservation_row) : bool :=
  String.eqb (app r) a && String.eqb (component r) c.

Definition fresh_id (tbl : list reservation_row) : Z :=
  1 + foldr Z.max 0 (id <$> tbl).

Definition log_entry (a c : string) (at_ : Z) (db : database) : database :=
  {| reservations := reservations db;
     snoozes := snoozes db;
     nodes := nodes db;
     housekeeping := housekeeping db ++ [ {| h_app := a; h_component := c; h_at := at_ |} ] |}.

Definition set_reservations (tbl : list reservation_row) (db : database) : database :=
  {| reservations := tbl;
     snoozes := snoozes db;
     nodes := nodes db;
     housekeeping := housekeeping db |}.

(** Modelled from the spec: [storeReservation] (CreateReservation):
    persists a new Reservation with [numCheckins = 0] and
    [lastCheckinTimestamp = 0], and a housekeeping log entry; the pair is
    unique in the table, so a second reservation for it is refused. *)
Definition storeReservation (w : world) (db : database) (res : reservation)
  : result database :=
  if exec_err w OpStoreReservation then Err "store: statement refused"
  else if existsb (same_pair (App res) (Component res)) (reservations db)
  then Err "store: duplicate reservation"
  else
    let row :=
      {| id := fresh_id (reservations db);
         app := App res; component := Component res;
         owner := Owner res; notify := Notify res;
         alert_msg := Some (AlertMessage res);
         frequency := Frequency res; time_units := TimeUnits res;
         last_checkin_timestamp := 0; num_checkins := 0 |} in
    Ok (log_entry (App res) (Component res) (clock w)
          (set_reservations (reservations db ++ [row]) db)).

Definition touch (now : Z) (r : reservation_row) : reservation_row :=
  {| id := id r; app := app r; component := component r;
     owner := owner r; notify := notify r; alert_msg := alert_msg r;
     frequency := frequency r; time_units := time_units r;
     last_checkin_timestamp := now; num_checkins := num_checkins r + 1 |}.

(** Modelled from the spec: [storeCheckin] (the update half of
    ApplyCheckin): sets [lastCheckinTimestamp = now] and increments
    [numCheckins]; a checkin for a pair without a reservation is accepted
    and recorded, as a record that holds the pair, zero values for the
    contract, and this first checkin. *)
Definition storeCheckin (w : world) (db : database) (c : checkin) (now : Z)
  : result database :=
  if exec_err w OpStoreCheckin then Err "store: statement refused"
  else if existsb (same_pair (ci_App c) (ci_Component c)) (reservations db)
  then
    Ok (set_reservations
          ((fun r => if same_pair (ci_App c) (ci_Component c) r
                     then touch now r else r) <$> reservations db) db)
  else
    let row :=
      {| id := fresh_id (reservations db);
         app := ci_App c; component := ci_Component c;
         owner := ""; notify := ""; alert_msg := None;
         frequency := 0; time_units := "";
         last_checkin_timestamp := now; num_checkins := 1 |} in
    Ok (set_reservations (reservations db ++ [row]) db).

(** Modelled from the spec: [logHouseKeeping] (the log half of
    ApplyCheckin): appends a housekeeping log entry. *)
Definition logHouseKeeping (w : world) (db : database) (c : checkin) (now : Z)
  : result database :=
  if exec_err w OpLogHouseKeeping then Err "store: statement refused"
  else Ok (log_entry (ci_App c) (ci_Component c) now db).

(** Modelled from the spec: [storeSnooze] (ApplySnooze): persists the
    snooze, issued at the current instant; outstanding snoozes coexist. *)
Definition storeSnooze (w : world) (db : database) (p : snooze)
  : result database :=
  if exec_err w OpStoreSnooze then Err "store: statement refused"
  else
    Ok {| reservations := reservations db;
          snoozes := snoozes db ++
            [ {| z_app := sn_App p; z_component := sn_Component p;
                 z_issued := clock w; z_duration := sn_Duration p;
                 z_time_units := sn_TimeUnits p |} ];
          nodes := nodes db;
          housekeeping := housekeeping db |}.

(** Modelled from the spec: [storeCheckOut] (Checkout): deletes the
    reservation of the pair; deleting an absent pair is not an error. *)
Definition storeCheckOut (w : world) (db : database) (p : checkOut)
  : result database :=
  if exec_err w OpStoreCheckOut then Err "store: statement refused"
  else
    Ok (set_reservations
          (filter (fun r => same_pair (co_App p) (co_Component p) r = false)
                  (reservations db)) db).

(** ** Requests and replies *)

(** What [decoder.Decode(&p)] leaves behind for [p := new(T)]. *)
Inductive decoded (A : Type) : Type :=
| DecOk (v : A)          (* err == nil and p points to the decoded value *)
| DecNil                 (* the body is the JSON null: err == nil, p == nil *)
| DecErr (partial : A).  (* err != nil; p points to what was filled so far *)
Arguments DecOk {A} v.
Arguments DecNil {A}.
Arguments DecErr {A} partial.

Inductive jvalue :=
| JBool (b : bool)
| JString (s : string)
| JReservations (l : list reservation).

(** [type Response map[string]interface{}] *)
Abbreviation Response := (gmap string jvalue).

(** The [interface{}] handed to [writeError] and [writeResponse]. *)
Inductive payload :=
| PString (s : string)
| PResponse (r : Response).

Record reply := { status : Z; written : payload }.

(** A handler either writes a reply or dereferences the nil pointer a
    JSON null left, which ends the request without a reply. *)
Inductive outcome :=
| Replied (r : reply)
| Panicked.

Definition StatusBadRequest : Z := 400.
Definition StatusOK : Z := 200.

(** [json.Marshal] does not fail on a string or on a [Response] of
    booleans, strings and reservations. *)
Definition writeError (e : payload) : reply :=
  {| status := StatusBadRequest; written := e |}.

Definition writeResponse (e : payload) : reply :=
  {| status := StatusOK; written := e |}.

Definition refusal (message : string) : payload :=
  PResponse {[ "success" := JBool false; "message" := JString message ]}.

Definition success (message : string) : payload :=
  PResponse {[ "success" := JBool true; "message" := JString message ]}.

(** ** The handlers *)

Definition makeReservation (w : world) (req : decoded reservation)
    (db : database) : database * outcome :=
  match req with
  | DecNil => (db, Panicked)
  | DecOk res | DecErr res =>
      (* a decoding error is logged and the handler goes on *)
      match validateReservation res with
      | Some err =>
          (db, Replied (writeError (PString
             ("Unable to store reservation, validation failure ["
                +:+ err +:+ "]"))))
      | None =>
          match storeReservation w db res with
          | Err _ =>
              (db, Replied (writeError (PString "Unable to store reservation")))
          | Ok db' => (db', Replied (writeResponse (PString "OK")))
          end
      end
  end.

Definition doCheckin (w : world) (req : decoded checkin) (db : database)
  : database * outcome :=
  match req with
  | DecErr c =>
      (db, Replied (writeResponse (refusal ("Unable to checkin: " +:+ ci_App c))))
  | DecNil => (db, Panicked)
  | DecOk c =>
      let now := clock w in
      match storeCheckin w db c now with
      | Err _ =>
          (db, Replied (writeResponse
                 (refusal ("Unable to save checkin: " +:+ ci_App c))))
      | Ok db1 =>
          match logHouseKeeping w db1 c now with
          | Err _ =>
              (db1, Replied (writeResponse
                      (refusal ("Unable to save checkin: " +:+ ci_App c))))
          | Ok db2 =>
              (db2, Replied (writeResponse
                      (success ("Application checked in: " +:+ ci_App c))))
          end
      end
  end.

Definition doSnooze (w : world) (req : decoded snooze) (db : database)
  : database * outcome :=
  match req with
  | DecErr p =>
      (db, Replied (writeResponse (refusal ("Unable to snooze: " +:+ sn_App p))))
  | DecNil => (db, Panicked)
  | DecOk p =>
      match validateSnooze p with
      | Some err =>
          (db, Replied (writeError (PString
             ("Unable to store snooze, validation failure ["
                +:+ err +:+ "]"))))
      | None =>
          match storeSnooze w db p with
          | Err _ =>
              (db, Replied (writeResponse
                     (refusal ("Unable to save snooze: " +:+ sn_App p))))
          | Ok db' =>
              (db', Replied (writeResponse
                      (success ("Application alerting paused: " +:+ sn_App p))))
          end
      end
  end.

Definition doCheckOut (w : world) (req : decoded checkOut) (db : database)
  : database * outcome :=
  match req with
  | DecErr p =>
      (db, Replied (writeResponse (refusal ("Unable to checkout: " +:+ co_App p))))
  | DecNil => (db, Panicked)
  | DecOk p =>
      match storeCheckOut w db p with
      | Err _ =>
          (db, Replied (writeResponse
                 (refusal ("Unable to save checkout: " +:+ co_App p))))
      | Ok db' =>
          (db', Replied (writeResponse
                  (success ("Application Removed [" +:+ co_App p +:+ "/"
                              +:+ co_Component p +:+ "] "))))
      end
  end.

(** ** The read paths *)

(** [ORDER BY last_checkin_timestamp DESC] *)
Definition recent_first (a b : reservation_row) : Prop :=
  last_checkin_timestamp b <= last_checkin_timestamp a.

#[local] Instance recent_first_dec a b : Decision (recent_first a b).
Proof. unfold recent_first. apply _. Defined.

(** [ORDER BY id] *)
Definition by_id (a b : node_row) : Prop := n_id a <= n_id b.

#[local] Instance by_id_dec a b : Decision (by_id a b).
Proof. unfold by_id. apply _. Defined.

(** [ge.Db.Query]: the rows of the table in the order the query asks
    for, or the error of the driver. *)
Definition query_reservations (w : world) (db : database)
  : result (list reservation_row) :=
  if query_err w then Err "sql: query failed"
  else Ok (merge_sort recent_first (reservations db)).

Definition query_nodes (w : world) (db : database) : result (list node_row) :=
  if query_err w then Err "sql: query failed"
  else Ok (merge_sort by_id (nodes db)).

Definition set_display (t s : string) (res : reservation) : reservation :=
  {| JobID := JobID res; App := App res; Component := Component res;
     Owner := Owner res; Notify := Notify res;
     AlertMessage := AlertMessage res; Frequency := Frequency res;
     TimeUnits := TimeUnits res; LastCheckin := LastCheckin res;
     NumCheckins := NumCheckins res;
     TimeSinceLastCheckin := t; LastCheckinStr := s;
     FailingSLA := FailingSLA res |}.

Definition set_FailingSLA (b : bool) (res : reservation) : reservation :=
  {| JobID := JobID res; App := App res; Component := Component res;
     Owner := Owner res; Notify := Notify res;
     AlertMessage := AlertMessage res; Frequency := Frequency res;
     TimeUnits := TimeUnits res; LastCheckin := LastCheckin res;
     NumCheckins := NumCheckins res;
     TimeSinceLastCheckin := TimeSinceLastCheckin res;
     LastCheckinStr := LastCheckinStr res;
     FailingSLA := b |}.

Definition set_AlertMessage (m : string) (res : reservation) : reservation :=
  {| JobID := JobID res; App := App res; Component := Component res;
     Owner := Owner res; Notify := Notify res;
     AlertMessage := m; Frequency := Frequency res;
     TimeUnits := TimeUnits res; LastCheckin := LastCheckin res;
     NumCheckins := NumCheckins res;
     TimeSinceLastCheckin := TimeSinceLastCheckin res;
     LastCheckinStr := LastCheckinStr res;
     FailingSLA := FailingSLA res |}.

(** The body of the [for rows.Next()] loop of [getReservations], from the
    scan of one row to the value appended. *)
Definition scan_reservation (w : world) (db : database) (row : reservation_row)
  : reservation :=
  let alertMessage := scan_NullString (alert_msg row) in
  let res :=
    {| JobID := id row; App := app row; Component := component row;
       Owner := owner row; Notify := notify row; AlertMessage := "";
       Frequency := frequency row; TimeUnits := time_units row;
       LastCheckin := last_checkin_timestamp row;
       NumCheckins := num_checkins row;
       TimeSinceLastCheckin := ""; LastCheckinStr := "";
       FailingSLA := false |} in
  let lastCheckin := LastCheckin res in
  let res := set_display (RelTime w lastCheckin (clock w) "ago" "")
                         (rfc1123 w lastCheckin) res in
  let res := if FailsSLA w db res then set_FailingSLA true res
             else set_FailingSLA false res in
  let res := if negb (Valid alertMessage) || String.eqb (String_ alertMessage) ""
             then set_AlertMessage (String_ alertMessage) res
             else res in
  res.

Fixpoint getReservations_rows (w : world) (db : database) (i : nat)
    (rows : list reservation_row) (reservations : list reservation)
  : result (list reservation) :=
  match rows with
  | [] => Ok reservations
  | row :: rows =>
      if scan_err w i then Err "sql: Scan error"
      else getReservations_rows w db (S i) rows
             (reservations ++ [scan_reservation w db row])
  end.

Definition getReservations (w : world) (db : database)
  : result (list reservation) :=
  match query_reservations w db with
  | Err e => Err e
  | Ok rows => getReservations_rows w db 0 rows []
  end.

(** The URL [getNodes] polls for a peer. *)
Definition is_coordinator_url (ip : string) : string :=
  "http://" +:+ ip +:+ ":8080/is-coordinator".

Definition set_IsCoordinator (b : bool) (n : node) : node :=
  {| ID := ID n; IPAddress := IPAddress n; NodeID := NodeID n;
     IsCoordinator := b |}.

Fixpoint getNodes_rows (w : world) (i : nat) (rows : list node_row)
    (nodes : list node) : result (list node) :=
  match rows with
  | [] => Ok nodes
  | row :: rows =>
      if scan_err w i then Err "sql: Scan error"
      else
        let res := {| ID := n_id row; IPAddress := ip_address row;
                      NodeID := node_id row; IsCoordinator := false |} in
        match http_get w (is_coordinator_url (IPAddress res)) with
        | GetErr => getNodes_rows w (S i) rows nodes              (* continue *)
        | GetResp StatusCode body _ =>
            if negb (StatusCode =? 200)
            then getNodes_rows w (S i) rows nodes                (* continue *)
            else
              let res := if String.eqb body "true"
                         then set_IsCoordinator true res else res in
              getNodes_rows w (S i) rows (nodes ++ [res])
        end
  end.

Definition getNodes (w : world) (db : database) : result (list node) :=
  match query_nodes w db with
  | Err e => Err e
  | Ok rows => getNodes_rows w 0 rows []
  end.

Definition listReservations (w : world) (db : database) : reply :=
  match getReservations w db with
  | Err _ => writeResponse (refusal "Unable to list reservations")
  | Ok reservations =>
      writeResponse (PResponse {[ "success" := JBool true;
                                  "result" := JReservations reservations ]})
  end.


Definition invalid_time_units : string := "Invalid time_units passed in".

#[local] Instance recognised_dec (u : string) : Decision (recognised u).
Proof. unfold recognised. apply _. Defined.

(** The reply of a handler whose validator returned [err]. *)
Definition validation_failure (what err : string) : outcome :=
  Replied (writeError (PString
    ("Unable to store " +:+ what +:+ ", validation failure [" +:+ err +:+ "]"))).

(** A peer is reachable when the GET goes through and the status is 200;
    a transport failure or any other status makes it unreachable. *)
Definition reachable (w : world) (row : node_row) : bool :=
  match http_get w (is_coordinator_url (ip_address row)) with
  | GetErr => false
  | GetResp StatusCode _ _ => StatusCode =? 200
  end.

(** The node reported for a row: the flag is set exactly when the body
    of the peer's answer is "true". *)
Definition polled (w : world) (row : node_row) : node :=
  {| ID := n_id row; IPAddress := ip_address row; NodeID := node_id row;
     IsCoordinator :=
       match http_get w (is_coordinator_url (ip_address row)) with
       | GetErr => false
       | GetResp _ body _ => String.eqb body "true"
       end |}.

(** The rows of a table whose peer is reachable, and those whose peer is not. *)
Definition online (w : world) (rows : list node_row) : list node_row :=
  List.filter (reachable w) rows.

Definition offline (w : world) (rows : list node_row) : list node_row :=
  List.filter (fun row => negb (reachable w row)) rows.

(** The row a table holds for a pair, if any. *)
Definition lookup_pair (a c : string) (tbl : list reservation_row)
  : option reservation_row :=
  find (same_pair a c) tbl.

(** The number of checkins the store has counted for a pair. *)
Definition counted (a c : string) (db : database) : Z :=
  match lookup_pair a c (reservations db) with
  | Some r => num_checkins r
  | None => 0
  end.

(** The update of a checkin is recorded in [db'], relative to [db]: the
    row of the pair carries the instant of the checkin and one more
    checkin than was counted. *)
Definition checkin_recorded (c : checkin) (now : Z) (db db' : database) : Prop :=
  exists r,
    lookup_pair (ci_App c) (ci_Component c) (reservations db') = Some r /\
    last_checkin_timestamp r = now /\
    num_checkins r = counted (ci_App c) (ci_Component c) db + 1.

(** The log entry of a checkin. *)
Definition checkin_entry (c : checkin) (now : Z) : housekeeping_row :=
  {| h_app := ci_App c; h_component := ci_Component c; h_at := now |}.

(** Case analysis on the verdict of [FailsSLA] inside a goal. *)
Ltac case_sla :=
  match goal with
  | |- context [FailsSLA ?w ?db ?r] => destruct (FailsSLA w db r)
  end.

(** ** Fixtures: a cluster of three nodes and its store *)

(** Node 10.0.0.1 answers that it is the coordinator, 10.0.0.2 answers
    with a server error, and nothing else can be reached. *)
Definition cluster_net (url : string) : http_result :=
  if String.eqb url "http://10.0.0.1:8080/is-coordinator"
  then GetResp 200 "true" false
  else if String.eqb url "http://10.0.0.2:8080/is-coordinator"
  then GetResp 500 "" false
  else GetErr.

Definition no_fault (op : store_op) : bool := false.

Definition log_down (op : store_op) : bool :=
  match op with OpLogHouseKeeping => true | _ => false end.

Definition world_at (now : Z) (faults : store_op -> bool) : world :=
  {| clock := now;
     http_get := cluster_net;
     query_err := false;
     scan_err := fun _ => false;
     exec_err := faults;
     humanize := fun _ => "a while";
     rfc1123 := fun _ => "" |}.

Definition svc_db : reservation_row :=
  {| id := 1; app := "svc"; component := "db"; owner := "ops";
     notify := "ops@example.org"; alert_msg := Some "db is down";
     frequency := 5; time_units := "minutes";
     last_checkin_timestamp := 100; num_checkins := 3 |}.

Definition svc_web : reservation_row :=
  {| id := 2; app := "svc"; component := "web"; owner := "ops";
     notify := "ops@example.org"; alert_msg := None;
     frequency := 1; time_units := "hours";
     last_checkin_timestamp := 900; num_checkins := 7 |}.

Definition cluster : database :=
  {| reservations := [svc_db; svc_web];
     snoozes := [];
     nodes := [ {| n_id := 3; ip_address := "10.0.0.3"; node_id := 2 |};
                {| n_id := 1; ip_address := "10.0.0.1"; node_id := 0 |};
                {| n_id := 2; ip_address := "10.0.0.2"; node_id := 1 |} ];
     housekeeping := [] |}.

Definition empty_store : database :=
  {| reservations := []; snoozes := []; nodes := []; housekeeping := [] |}.

Definition request (a c u : string) (f : Z) : reservation :=
  {| JobID := 0; App := a; Component := c; Owner := ""; Notify := "";
     AlertMessage := ""; Frequency := f; TimeUnits := u; LastCheckin := 0;
     NumCheckins := 0; TimeSinceLastCheckin := ""; LastCheckinStr := "";
     FailingSLA := false |}.

(** The scenario of the specification: a five-minute contract, last
    checkin at [T = 10000], and a one-hour snooze issued at [T + 6min]. *)
Definition scenario : reservation :=
  {| JobID := 1; App := "svc"; Component := "db"; Owner := ""; Notify := "";
     AlertMessage := ""; Frequency := 5; TimeUnits := "minutes";
     LastCheckin := 10000; NumCheckins := 1; TimeSinceLastCheckin := "";
     LastCheckinStr := ""; FailingSLA := false |}.

Definition scenario_snooze : snooze_row :=
  {| z_app := "svc"; z_component := "db"; z_issued := 10360;
     z_duration := 1; z_time_units := "hours" |}.
(** ** The bad guests *)

(** [type badGuest struct], declared in [api.go]. *)
Record badGuest := { bg_App : string; bg_Component : string; NumFails : Z }.

(** The columns of table [alerts] that the query of [getBadGuests] names. *)
Record alert_row := { a_app : string; a_component : string }.

Definition alert_key (r : alert_row) : string * string :=
  (a_app r, a_component r).

(** [count( * )] of the group of a pair. *)
Definition group_size (k : string * string) (alerts : list alert_row) : Z :=
  Z.of_nat (length (filter (fun r => alert_key r = k) alerts)).

(** [SELECT app, component, count( * ) AS cnt FROM alerts
     GROUP BY app, component]: one row for each pair the table holds. *)
Definition group_alerts (alerts : list alert_row) : list (string * string * Z) :=
  (fun k => (k.1, k.2, group_size k alerts))
    <$> remove_dups (alert_key <$> alerts).

(** [ORDER by cnt DESC] *)
Definition most_first (a b : string * string * Z) : Prop := b.2 <= a.2.

#[local] Instance most_first_dec a b : Decision (most_first a b).
Proof. unfold most_first. apply _. Defined.

Definition query_badguests (w : world) (alerts : list alert_row)
  : result (list (string * string * Z)) :=
  if query_err w then Err "sql: query failed"
  else Ok (merge_sort most_first (group_alerts alerts)).

Fixpoint getBadGuests_rows (w : world) (i : nat)
    (rows : list (string * string * Z)) (guests : list badGuest)
  : result (list badGuest) :=
  match rows with
  | [] => Ok guests
  | row :: rows =>
      if scan_err w i then Err "sql: Scan error"
      else
        let res := {| bg_App := row.1.1; bg_Component := row.1.2;
                      NumFails := row.2 |} in
        getBadGuests_rows w (S i) rows (guests ++ [res])
  end.

Definition getBadGuests (w : world) (alerts : list alert_row)
  : result (list badGuest) :=
  match query_badguests w alerts with
  | Err e => Err e
  | Ok rows => getBadGuests_rows w 0 rows []
  end.


(** [rows.Scan] goes through for the [n] rows from the [i]-th on. *)
Definition scans_ok (w : world) (i n : nat) : bool :=
  forallb (fun j => negb (scan_err w j)) (seq i n).

(** ** The coordinator flag *)

(** [json.Marshal] of a Go [bool]. *)
Definition marshal_bool (b : bool) : string := if b then "true" else "false".

(** [isCoordinator]: [writeResponse(w, coordinator)], as the status and
    the bytes written.  Modelled from the spec: the package variable
    [coordinator], declared outside [api.go], is this node's own flag, a
    [bool]. *)
Definition isCoordinator (coordinator : bool) : Z * string :=
  (StatusOK, marshal_bool coordinator).

(** What a peer that runs [isCoordinator] hands to [http.Get]. *)
Definition peer_answer (coordinator : bool) : http_result :=
  GetResp (isCoordinator coordinator).1 (isCoordinator coordinator).2 false.

(** ** The routes of [InitAPI] *)

(** A request, as the handlers read it: the method, the path (in the
    canonical form the multiplexer matches on), and the body. *)
Record Request (body : Type) := {
  Method : string;
  Path : string;
  Body : body
}.
Arguments Method {body} r.
Arguments Path {body} r.
Arguments Body {body} r.

(** [json.NewDecoder(req.Body).Decode], for each destination a handler
    decodes into. *)
Record decoder (body : Type) := {
  to_reservation : body -> decoded reservation;
  to_checkin : body -> decoded checkin;
  to_snooze : body -> decoded snooze;
  to_checkOut : body -> decoded checkOut
}.
Arguments to_reservation {body} d b.
Arguments to_checkin {body} d b.
Arguments to_snooze {body} d b.
Arguments to_checkOut {body} d b.

(** What the process was started with: the argument [htmlPath], the
    files [template.ParseFiles] can parse, and the node's own flag. *)
Record process := {
  htmlPath : string;
  parses : string -> bool;
  coordinator : bool
}.

(** The data a template is executed on. *)
Inductive view :=
| ViewReservations (l : list reservation)
| ViewBadGuests (l : list badGuest)
| ViewNodes (l : list node).

(** What a route does to the response writer. *)
Inductive served :=
| Handled (o : outcome)                 (* a JSON handler ran *)
| Wrote (status : Z) (bytes : string)   (* the marshalled flag *)
| Page (file : string) (v : view)       (* t.Execute(w, &v) *)
| Blank.                                (* nothing is written *)

Definition invalid_method (m : string) : served :=
  Handled (Replied (writeError (PString ("Invalid method " +:+ m)))).

Definition unable_to_serve : served :=
  Handled (Replied (writeResponse (refusal "Unable to server views"))).

(** The [else] branch of the three page routes: parse the template, and
    execute it when it parses; a template that does not parse is logged. *)
Definition render (p : process) (file : string) (v : view) : served :=
  if parses p (htmlPath p +:+ file) then Page (htmlPath p +:+ file) v
  else Blank.

(** The handlers [InitAPI] registers with [http.HandleFunc], behind the
    multiplexer: a path is served by the route registered for it, and by
    the route of ["/"] when none is. *)
Definition InitAPI {body : Type} (dec : decoder body) (p : process)
    (w : world) (alerts : list alert_row) (r : Request body) (db : database)
  : database * served :=
  let GET := String.eqb (Method r) "GET" in
  let POST := String.eqb (Method r) "POST" in
  let handled (x : database * outcome) := (x.1, Handled x.2) in
  if String.eqb (Path r) "/status" then
    if GET then
      match getReservations w db with
      | Err _ => (db, unable_to_serve)
      | Ok reservations =>
          (db, render p "/public/view.html" (ViewReservations reservations))
      end
    else (db, Blank)
  else if String.eqb (Path r) "/badguests" then
    if GET then
      match getBadGuests w alerts with
      | Err _ => (db, unable_to_serve)
      | Ok reservations =>
          (db, render p "/public/badguests.html" (ViewBadGuests reservations))
      end
    else (db, Blank)
  else if String.eqb (Path r) "/nodes" then
    if GET then
      match getNodes w db with
      | Err _ => (db, unable_to_serve)
      | Ok reservations =>
          (db, render p "/public/nodes.html" (ViewNodes reservations))
      end
    else (db, Blank)
  else if String.eqb (Path r) "/reservation" then
    if GET then (db, Handled (Replied (listReservations w db)))
    else if POST
    then handled (makeReservation w (to_reservation dec (Body r)) db)
    else (db, invalid_method (Method r))
  else if String.eqb (Path r) "/checkin" then
    if POST then handled (doCheckin w (to_checkin dec (Body r)) db)
    else (db, invalid_method (Method r))
  else if String.eqb (Path r) "/checkout" then
    if POST then handled (doCheckOut w (to_checkOut dec (Body r)) db)
    else (db, invalid_method (Method r))
  else if String.eqb (Path r) "/snooze" then
    if POST then handled (doSnooze w (to_snooze dec (Body r)) db)
    else (db, invalid_method (Method r))
  else if String.eqb (Path r) "/is-coordinator" then
    if GET
    then (db, Wrote (isCoordinator (coordinator p)).1
                    (isCoordinator (coordinator p)).2)
    else (db, invalid_method (Method r))
  else
    if GET
    then (db, Handled (Replied (writeResponse (success "A-OK!"))))
    else (db, Blank).


(** The routes that answer a method they do not serve with an error. *)
Definition strict_routes : list string :=
  [ "/reservation"; "/checkin"; "/checkout"; "/snooze"; "/is-coordinator" ].

(** The routes that call a store function. *)
Definition write_routes : list string :=
  [ "/reservation"; "/checkin"; "/checkout"; "/snooze" ].

(** The methods a strict route serves. *)
Definition serves (path method : string) : bool :=
  if String.eqb path "/reservation"
  then String.eqb method "GET" || String.eqb method "POST"
  else if String.eqb path "/is-coordinator" then String.eqb method "GET"
  else String.eqb method "POST".


(** ** Fixtures: requests *)

(** A body given by what it decodes to as a checkin; it decodes to
    nothing else. *)
Definition checkin_only : decoder (decoded checkin) :=
  {| to_reservation := fun _ => DecErr (request "" "" "" 0);
     to_checkin := fun b => b;
     to_snooze := fun _ =>
       DecErr {| sn_App := ""; sn_Component := ""; sn_Duration := 0;
                 sn_TimeUnits := "" |};
     to_checkOut := fun _ => DecErr {| co_App := ""; co_Component := "" |} |}.

Definition here : process :=
  {| htmlPath := "/srv/gotel"; parses := fun _ => true; coordinator := true |}.

Definition alert_log : list alert_row :=
  [ {| a_app := "svc"; a_component := "web" |};
    {| a_app := "svc"; a_component := "db" |};
    {| a_app := "batch"; a_component := "etl" |};
    {| a_app := "svc"; a_component := "db" |} ].

(** A cluster in which every node runs [isCoordinator]; the node at
    10.0.0.2 is the coordinator. *)
Definition flags (ip : string) : bool := String.eqb ip "10.0.0.2".

Definition sound_net (url : string) : http_result :=
  if String.eqb url "http://10.0.0.1:8080/is-coordinator"
  then peer_answer (flags "10.0.0.1")
  else if String.eqb url "http://10.0.0.2:8080/is-coordinator"
  then peer_answer (flags "10.0.0.2")
  else if String.eqb url "http://10.0.0.3:8080/is-coordinator"
  then peer_answer (flags "10.0.0.3")
  else GetErr.

Definition sound_world : world :=
  {| clock := 1000;
     http_get := sound_net;
     query_err := false;
     scan_err := fun _ => false;
     exec_err := no_fault;
     humanize := fun _ => "a while";
     rfc1123 := fun _ => "" |}.


(** The node [getNodes] reports for a row whose peer has flag [b]. *)
Definition node_with (b : bool) (row : node_row) : node :=
  {| ID := n_id row; IPAddress := ip_address row; NodeID := node_id row;
     IsCoordinator := b |}.



(** A [Response] with its two usual keys. *)
Definition verdict (b : bool) (message : string) : payload :=
  PResponse {[ "success" := JBool b; "message" := JString message ]}.


(** Membership of a literal in a list of literals. *)
Ltac in_list := simpl; repeat (first [left; reflexivity | right]).
(** * Properties *)

(** ** Validation *)

Lemma validTimeUnits_lookup (u : string) :
  (recognised u -> validTimeUnits !! u = Some 1) /\
  (~ recognised u -> validTimeUnits !! u = None).
Proof.
  unfold recognised, validTimeUnits. split.
  - intros [-> | [-> | ->]]; reflexivity.
  - intros Hn.
    rewrite !lookup_insert_ne by (intros E; apply Hn; rewrite <- E; tauto).
    apply lookup_singleton_ne. intros E; apply Hn; rewrite <- E; tauto.
Qed.

Example validate_secs :
  validateReservation
    {| JobID := 0; App := "svc"; Component := "db"; Owner := ""; Notify := "";
       AlertMessage := ""; Frequency := 0; TimeUnits := "seconds";
       LastCheckin := 0; NumCheckins := 0; TimeSinceLastCheckin := "";
       LastCheckinStr := ""; FailingSLA := false |} = None.
Proof. vm_compute. reflexivity. Qed.

Lemma validateReservation_spec (res : reservation) :
  (recognised (TimeUnits res) -> validateReservation res = None) /\
  (~ recognised (TimeUnits res) ->
   validateReservation res = Some invalid_time_units).
Proof.
  unfold validateReservation.
  change ({[ "seconds" := 1; "minutes" := 1; "hours" := 1 ]} : gmap string Z)
    with validTimeUnits.
  destruct (validTimeUnits_lookup (TimeUnits res)) as [Hin Hout].
  split; intros H.
  - now rewrite (Hin H).
  - now rewrite (Hout H).
Qed.

Lemma validateSnooze_spec (p : snooze) :
  (recognised (sn_TimeUnits p) ->
   validateSnooze p = if sn_Duration p =? 0 then Some "" else None) /\
  (~ recognised (sn_TimeUnits p) ->
   validateSnooze p = Some invalid_time_units).
Proof.
  unfold validateSnooze.
  destruct (validTimeUnits_lookup (sn_TimeUnits p)) as [Hin Hout].
  split; intros H.
  - now rewrite (Hin H).
  - now rewrite (Hout H).
Qed.

Lemma recognised_iff_valid (u : string) :
  recognised u <-> is_Some (validTimeUnits !! u).
Proof.
  destruct (validTimeUnits_lookup u) as [Hin Hout]. split.
  - intros H. rewrite (Hin H). eauto.
  - intros [x Hx]. destruct (decide (recognised u)) as [|Hn]; [assumption|].
    rewrite (Hout Hn) in Hx. discriminate.
Qed.

Lemma makeReservation_invalid (w : world) (res : reservation) (db : database)
    (err : string) :
  validateReservation res = Some err ->
  makeReservation w (DecOk res) db = (db, validation_failure "reservation" err) /\
  makeReservation w (DecErr res) db = (db, validation_failure "reservation" err).
Proof. intros H. unfold makeReservation. rewrite H. split; reflexivity. Qed.

Lemma doSnooze_invalid (w : world) (p : snooze) (db : database) (err : string) :
  validateSnooze p = Some err ->
  doSnooze w (DecOk p) db = (db, validation_failure "snooze" err).
Proof. intros H. unfold doSnooze. rewrite H. reflexivity. Qed.

(** C7.  A reservation or a snooze whose [timeUnits] is not one of
    "seconds", "minutes", "hours" fails validation: the validator returns
    the time-units error, and the handler answers with the validation
    failure and leaves the store as it was.  An input whose [timeUnits]
    is one of the three passes the time-units check: [validateReservation]
    returns nil, and [validateSnooze] goes on to the duration. *)
Theorem time_units_validation (res : reservation) (p : snooze)
    (w : world) (db : database) :
  (~ recognised (TimeUnits res) ->
     validateReservation res = Some invalid_time_units /\
     makeReservation w (DecOk res) db
       = (db, validation_failure "reservation" invalid_time_units)) /\
  (~ recognised (sn_TimeUnits p) ->
     validateSnooze p = Some invalid_time_units /\
     doSnooze w (DecOk p) db
       = (db, validation_failure "snooze" invalid_time_units)) /\
  (recognised (TimeUnits res) -> validateReservation res = None) /\
  (recognised (sn_TimeUnits p) ->
     validateSnooze p <> Some invalid_time_units).
Proof.
  destruct (validateReservation_spec res) as [Rin Rout].
  destruct (validateSnooze_spec p) as [Sin Sout].
  split; [|split; [|split]].
  - intros H. split; [auto|]. apply makeReservation_invalid; auto.
  - intros H. split; [auto|]. apply doSnooze_invalid; auto.
  - assumption.
  - intros H. rewrite (Sin H). destruct (sn_Duration p =? 0); discriminate.
Qed.

Lemma time_units_validation_witness :
  validateReservation (request "svc" "db" "weeks" 5) = Some invalid_time_units /\
  fst (makeReservation (world_at 1000 no_fault)
         (DecOk (request "svc" "db" "weeks" 5)) empty_store) = empty_store /\
  validateSnooze {| sn_App := "svc"; sn_Component := "db"; sn_Duration := 1;
                    sn_TimeUnits := "days" |} = Some invalid_time_units /\
  validateReservation (request "svc" "db" "minutes" 5) = None /\
  validateSnooze {| sn_App := "svc"; sn_Component := "db"; sn_Duration := 1;
                    sn_TimeUnits := "hours" |} <> Some invalid_time_units.
Proof.
  pose proof (time_units_validation (request "svc" "db" "weeks" 5)
    {| sn_App := "svc"; sn_Component := "db"; sn_Duration := 1;
       sn_TimeUnits := "days" |} (world_at 1000 no_fault) empty_store)
    as (Hres & Hsn & _ & _).
  pose proof (time_units_validation (request "svc" "db" "minutes" 5)
    {| sn_App := "svc"; sn_Component := "db"; sn_Duration := 1;
       sn_TimeUnits := "hours" |} (world_at 1000 no_fault) empty_store)
    as (_ & _ & Hres' & Hsn').
  assert (Hweeks : ~ recognised "weeks")
    by (intros [H | [H | H]]; discriminate H).
  assert (Hdays : ~ recognised "days")
    by (intros [H | [H | H]]; discriminate H).
  destruct (Hres Hweeks) as [H1 H2]. destruct (Hsn Hdays) as [H3 _].
  split; [exact H1|]. split; [rewrite H2; reflexivity|]. split; [exact H3|].
  split; [apply Hres'; right; left; reflexivity|].
  apply Hsn'. right; right; reflexivity.
Defined.

(** A reservation with frequency 0 and a recognised unit goes through
    validation and is stored. *)
Lemma zero_frequency_accepted :
  Frequency (request "svc" "db" "seconds" 0) <= 0 /\
  validateReservation (request "svc" "db" "seconds" 0) = None /\
  snd (makeReservation (world_at 1000 no_fault)
         (DecOk (request "svc" "db" "seconds" 0)) empty_store)
    = Replied (writeResponse (PString "OK")) /\
  (frequency <$> reservations
     (fst (makeReservation (world_at 1000 no_fault)
             (DecOk (request "svc" "db" "seconds" 0)) empty_store))) = [0].
Proof. vm_compute. repeat split; intros H; discriminate H. Qed.

(** C5, as the code has it.  [validateReservation] looks at [timeUnits]
    only: a reservation with a recognised unit passes whatever its
    frequency.  [validateSnooze] refuses a zero duration: the handler
    answers with the validation failure and leaves the store as it was. *)
Theorem zero_duration_rejected (res : reservation) (p : snooze)
    (w : world) (db : database) :
  recognised (TimeUnits res) ->
  sn_Duration p = 0 ->
  validateReservation res = None /\
  exists err,
    validateSnooze p = Some err /\
    doSnooze w (DecOk p) db = (db, validation_failure "snooze" err).
Proof.
  intros Hu Hd. split.
  - now apply validateReservation_spec.
  - destruct (decide (recognised (sn_TimeUnits p))) as [Hr | Hr].
    + exists "". assert (Hv : validateSnooze p = Some "").
      { destruct (validateSnooze_spec p) as [Sin _].
        rewrite (Sin Hr), Hd. reflexivity. }
      split; [exact Hv|]. now apply doSnooze_invalid.
    + exists invalid_time_units.
      assert (Hv : validateSnooze p = Some invalid_time_units)
        by now apply validateSnooze_spec.
      split; [exact Hv|]. now apply doSnooze_invalid.
Qed.

Lemma zero_duration_rejected_witness :
  recognised "seconds" /\
  sn_Duration {| sn_App := "svc"; sn_Component := "db"; sn_Duration := 0;
                 sn_TimeUnits := "hours" |} = 0 /\
  validateReservation (request "svc" "db" "seconds" (-3)) = None /\
  exists err,
    validateSnooze {| sn_App := "svc"; sn_Component := "db"; sn_Duration := 0;
                      sn_TimeUnits := "hours" |} = Some err /\
    doSnooze (world_at 1000 no_fault)
      (DecOk {| sn_App := "svc"; sn_Component := "db"; sn_Duration := 0;
                sn_TimeUnits := "hours" |}) cluster
    = (cluster, validation_failure "snooze" err).
Proof.
  assert (Hs : recognised "seconds") by (left; reflexivity).
  split; [exact Hs|]. split; [reflexivity|].
  apply (zero_duration_rejected (request "svc" "db" "seconds" (-3))
           {| sn_App := "svc"; sn_Component := "db"; sn_Duration := 0;
              sn_TimeUnits := "hours" |} (world_at 1000 no_fault) cluster).
  - exact Hs.
  - reflexivity.
Defined.

(** ** The SLA evaluator *)

Lemma unitSeconds_values :
  unitSeconds "seconds" = 1 /\ unitSeconds "minutes" = 60 /\
  unitSeconds "hours" = 3600.
Proof. repeat split. Qed.

Lemma unitTable_lookup (u : string) (k : Z) :
  unitTable !! u = Some k -> k = 1 \/ k = 60 \/ k = 3600.
Proof.
  unfold unitTable. intros H.
  destruct (decide (u = "seconds")) as [-> | Hs].
  { rewrite lookup_insert_eq in H. injection H as <-. auto. }
  rewrite lookup_insert_ne in H by congruence.
  destruct (decide (u = "minutes")) as [-> | Hm].
  { rewrite lookup_insert_eq in H. injection H as <-. auto. }
  rewrite lookup_insert_ne in H by congruence.
  destruct (decide (u = "hours")) as [-> | Hh].
  { rewrite lookup_singleton_eq in H. injection H as <-. auto. }
  rewrite lookup_singleton_ne in H by congruence. discriminate.
Qed.

Lemma unitSeconds_nonneg (u : string) : 0 <= unitSeconds u.
Proof.
  unfold unitSeconds. destruct (unitTable !! u) as [k|] eqn:E; simpl.
  - apply unitTable_lookup in E. lia.
  - lia.
Qed.

Section Evaluator.
Variable w : world.
Variable res : reservation.
Variable now : Z.

Lemma suppresses_iff (s : snooze_row) :
  suppresses res now s = true <->
  z_app s = App res /\ z_component s = Component res /\ now < expiry s.
Proof.
  unfold suppresses.
  rewrite !andb_true_iff, !String.eqb_eq, Z.ltb_lt. tauto.
Qed.

(** [activeSnooze] finds a snooze whenever the table holds an active one. *)
Lemma activeSnooze_finds (tbl : list snooze_row) (s : snooze_row) :
  In s tbl -> suppresses res now s = true ->
  exists s', activeSnooze tbl res now = Some s' /\
             suppresses res now s' = true.
Proof.
  intros Hin Hs. unfold activeSnooze.
  destruct (find (suppresses res now) tbl) as [s'|] eqn:E.
  - exists s'. split; [reflexivity|]. now apply find_some in E.
  - rewrite (find_none _ _ E s Hin) in Hs. discriminate.
Qed.

Lemma activeSnooze_none (tbl : list snooze_row) :
  activeSnooze tbl res now = None <->
  forall s, In s tbl -> suppresses res now s = false.
Proof.
  unfold activeSnooze. split.
  - intros E s Hin. exact (find_none _ _ E s Hin).
  - intros H. destruct (find (suppresses res now) tbl) as [s|] eqn:E;
      [|reflexivity].
    apply find_some in E as [Hin Hs]. rewrite (H s Hin) in Hs. discriminate.
Qed.

Lemma Evaluate_suppressed (s : snooze_row) :
  suppresses res now s = true ->
  failing (Evaluate w res (Some s) now) = false.
Proof. intros H. unfold Evaluate. simpl. rewrite H. reflexivity. Qed.

Lemma Evaluate_unsuppressed (snoozed : option snooze_row) :
  match snoozed with
  | Some s => suppresses res now s = false
  | None => True
  end ->
  failing (Evaluate w res snoozed now)
  = if now - LastCheckin res <? 0 then false
    else now - LastCheckin res >? Frequency res * unitSeconds (TimeUnits res).
Proof.
  intros H. unfold Evaluate. simpl.
  destruct snoozed as [s|]; [rewrite H|]; reflexivity.
Qed.
End Evaluator.

(** C2.  When the store holds a snooze for the pair of the reservation
    whose expiry instant is after [now], the evaluation returns
    [failing = false], whatever the time elapsed since the last checkin. *)
Theorem snooze_suppresses_failure (w : world) (res : reservation)
    (tbl : list snooze_row) (s : snooze_row) (now : Z) :
  In s tbl ->
  z_app s = App res ->
  z_component s = Component res ->
  now < expiry s ->
  failing (Evaluate w res (activeSnooze tbl res now) now) = false.
Proof.
  intros Hin Ha Hc He.
  assert (Hs : suppresses res now s = true) by now apply suppresses_iff.
  destruct (activeSnooze_finds res now tbl s Hin Hs) as (s' & -> & Hs').
  now apply Evaluate_suppressed.
Qed.

Lemma snooze_suppresses_failure_witness :
  In scenario_snooze [scenario_snooze] /\
  10390 < expiry scenario_snooze /\
  10390 - LastCheckin scenario > Frequency scenario * unitSeconds (TimeUnits scenario) /\
  failing (Evaluate (world_at 10390 no_fault) scenario
             (activeSnooze [scenario_snooze] scenario 10390) 10390) = false.
Proof.
  split; [left; reflexivity|]. split; [reflexivity|]. split; [reflexivity|].
  apply (snooze_suppresses_failure (world_at 10390 no_fault) scenario
           [scenario_snooze] scenario_snooze 10390).
  - left; reflexivity.
  - reflexivity.
  - reflexivity.
  - reflexivity.
Defined.

(** C3.  For a reservation with no active snooze for its pair (and a
    frequency that is not negative, as the data model has it), the
    evaluation returns [failing = true] exactly when
    [now - lastCheckinTimestamp > frequency * unitSeconds(timeUnits)],
    where [unitSeconds] is 1 for seconds, 60 for minutes and 3600 for
    hours. *)
Theorem failing_iff_gap_exceeded (w : world) (res : reservation)
    (tbl : list snooze_row) (now : Z) :
  activeSnooze tbl res now = None ->
  0 <= Frequency res ->
  (failing (Evaluate w res (activeSnooze tbl res now) now) = true <->
   now - LastCheckin res > Frequency res * unitSeconds (TimeUnits res)) /\
  unitSeconds "seconds" = 1 /\ unitSeconds "minutes" = 60 /\
  unitSeconds "hours" = 3600.
Proof.
  intros Hnone Hf. split; [|exact unitSeconds_values].
  rewrite Hnone, (Evaluate_unsuppressed w res now None I).
  pose proof (unitSeconds_nonneg (TimeUnits res)) as Hu.
  destruct (now - LastCheckin res <? 0) eqn:E.
  - apply Z.ltb_lt in E. split; [discriminate|]. nia.
  - rewrite Z.gtb_gt. lia.
Qed.

Lemma failing_iff_gap_exceeded_witness :
  activeSnooze [] scenario 10360 = None /\
  0 <= Frequency scenario /\
  failing (Evaluate (world_at 10360 no_fault) scenario
             (activeSnooze [] scenario 10360) 10360) = true /\
  failing (Evaluate (world_at 10240 no_fault) scenario
             (activeSnooze [] scenario 10240) 10240) <> true.
Proof.
  split; [reflexivity|]. split; [discriminate|].
  destruct (failing_iff_gap_exceeded (world_at 10360 no_fault) scenario []
              10360 eq_refl ltac:(discriminate)) as [[_ Hlate] _].
  destruct (failing_iff_gap_exceeded (world_at 10240 no_fault) scenario []
              10240 eq_refl ltac:(discriminate)) as [[Hearly _] _].
  split.
  - apply Hlate. reflexivity.
  - intros H. apply Hearly in H. vm_compute in H. discriminate H.
Defined.

(** C8.  For a reservation whose last checkin is in the future of [now]
    (a negative elapsed time), the evaluation does not report a failure,
    and the elapsed-time phrase is "just now". *)
Theorem future_checkin_not_failing (w : world) (res : reservation)
    (snoozed : option snooze_row) (now : Z) :
  now - LastCheckin res < 0 ->
  failing (Evaluate w res snoozed now) = false /\
  elapsedPhrase (Evaluate w res snoozed now) = "just now" /\
  RelTime w (LastCheckin res) now "ago" "" = "just now".
Proof.
  intros Hneg. apply Z.ltb_lt in Hneg.
  unfold Evaluate, RelTime. simpl. rewrite Hneg.
  split; [|split; reflexivity].
  destruct snoozed as [s|]; [destruct (suppresses res now s)|]; reflexivity.
Qed.

Lemma future_checkin_not_failing_witness :
  9000 - LastCheckin scenario < 0 /\
  failing (Evaluate (world_at 9000 no_fault) scenario None 9000) = false /\
  elapsedPhrase (Evaluate (world_at 9000 no_fault) scenario None 9000)
    = "just now" /\
  RelTime (world_at 9000 no_fault) (LastCheckin scenario) 9000 "ago" ""
    = "just now".
Proof.
  split; [reflexivity|].
  apply (future_checkin_not_failing (world_at 9000 no_fault) scenario None 9000).
  reflexivity.
Defined.

(** ** Listing the reservations *)

#[local] Instance recent_first_total : Total recent_first.
Proof. intros a b. unfold recent_first. lia. Qed.

#[local] Instance recent_first_trans : Transitive recent_first.
Proof. intros a b c. unfold recent_first. lia. Qed.

(** The loop appends the scanned rows, in order, or stops at the first
    row whose scan fails. *)
Lemma getReservations_rows_inv (w : world) (db : database)
    (rows : list reservation_row) :
  forall (i : nat) (acc rs : list reservation),
    getReservations_rows w db i rows acc = Ok rs ->
    rs = acc ++ (scan_reservation w db <$> rows).
Proof.
  induction rows as [|row rows IH]; intros i acc rs H; simpl in H.
  - injection H as <-. now rewrite app_nil_r.
  - destruct (scan_err w i); [discriminate|].
    apply IH in H. rewrite H, <- app_assoc. reflexivity.
Qed.

Lemma getReservations_rows_healthy (w : world) (db : database)
    (rows : list reservation_row) :
  (forall i, scan_err w i = false) ->
  forall (i : nat) (acc : list reservation),
    getReservations_rows w db i rows acc
    = Ok (acc ++ (scan_reservation w db <$> rows)).
Proof.
  intros Hscan. induction rows as [|row rows IH]; intros i acc; simpl.
  - now rewrite app_nil_r.
  - rewrite Hscan, IH, <- app_assoc. reflexivity.
Qed.

Lemma getReservations_inv (w : world) (db : database) (rs : list reservation) :
  getReservations w db = Ok rs ->
  rs = scan_reservation w db <$> merge_sort recent_first (reservations db).
Proof.
  unfold getReservations, query_reservations.
  destruct (query_err w); [discriminate|].
  intros H. now apply getReservations_rows_inv in H.
Qed.

Lemma getReservations_healthy (w : world) (db : database) :
  healthy w ->
  getReservations w db
  = Ok (scan_reservation w db <$> merge_sort recent_first (reservations db)).
Proof.
  intros [Hq Hs]. unfold getReservations, query_reservations. rewrite Hq.
  now rewrite getReservations_rows_healthy.
Qed.

Lemma scan_reservation_LastCheckin (w : world) (db : database)
    (row : reservation_row) :
  LastCheckin (scan_reservation w db row) = last_checkin_timestamp row.
Proof.
  unfold scan_reservation. case_sla.
  all: destruct (alert_msg row) as [m|]; simpl; [destruct (String.eqb m "")|];
    reflexivity.
Qed.

Lemma scan_reservation_AlertMessage (w : world) (db : database)
    (row : reservation_row) :
  AlertMessage (scan_reservation w db row) = "".
Proof.
  unfold scan_reservation. case_sla.
  all: destruct (alert_msg row) as [m|]; simpl; [|reflexivity].
  all: destruct (String.eqb m "") eqn:E; [|reflexivity].
  all: apply String.eqb_eq in E; subst m; reflexivity.
Qed.

(** The evaluation reads the pair, the contract and the last checkin of
    a reservation, and nothing else of it. *)
Lemma Evaluate_ext (w : world) (tbl : list snooze_row) (now : Z)
    (r r' : reservation) :
  App r = App r' -> Component r = Component r' ->
  Frequency r = Frequency r' -> TimeUnits r = TimeUnits r' ->
  LastCheckin r = LastCheckin r' ->
  Evaluate w r (activeSnooze tbl r now) now
  = Evaluate w r' (activeSnooze tbl r' now) now.
Proof.
  intros Ha Hc Hf Hu Hl.
  assert (Hs : forall s, suppresses r now s = suppresses r' now s)
    by (intros s; unfold suppresses; now rewrite Ha, Hc).
  assert (Hfind : activeSnooze tbl r now = activeSnooze tbl r' now).
  { unfold activeSnooze. induction tbl as [|s tbl IH]; simpl; [reflexivity|].
    rewrite Hs, IH. reflexivity. }
  unfold Evaluate. rewrite Hfind, Hf, Hu, Hl.
  destruct (activeSnooze tbl r' now) as [s|]; [rewrite Hs|]; reflexivity.
Qed.

(** What the loop of [getReservations] computes for a row: the fields of
    the row, and the verdict and the phrase of the evaluator at the
    instant of the call. *)
Lemma scan_reservation_evaluated (w : world) (db : database)
    (row : reservation_row) :
  let res := scan_reservation w db row in
  let ev := Evaluate w res (activeSnooze (snoozes db) res (clock w)) (clock w) in
  App res = app row /\ Component res = component row /\
  Frequency res = frequency row /\ TimeUnits res = time_units row /\
  LastCheckin res = last_checkin_timestamp row /\
  NumCheckins res = num_checkins row /\
  FailingSLA res = failing ev /\
  TimeSinceLastCheckin res = elapsedPhrase ev.
Proof.
  set (shown :=
    set_display (RelTime w (last_checkin_timestamp row) (clock w) "ago" "")
      (rfc1123 w (last_checkin_timestamp row))
      {| JobID := id row; App := app row; Component := component row;
         Owner := owner row; Notify := notify row; AlertMessage := "";
         Frequency := frequency row; TimeUnits := time_units row;
         LastCheckin := last_checkin_timestamp row;
         NumCheckins := num_checkins row;
         TimeSinceLastCheckin := ""; LastCheckinStr := "";
         FailingSLA := false |}).
  assert (Hscan : scan_reservation w db row
                  = set_FailingSLA (FailsSLA w db shown) shown).
  { unfold scan_reservation.
    match goal with
    | |- context [FailsSLA w db ?r] => change r with shown
    end.
    destruct (FailsSLA w db shown);
      (destruct (alert_msg row) as [m|]; simpl; [|reflexivity]);
      (destruct (String.eqb m "") eqn:E; [|reflexivity]);
      apply String.eqb_eq in E; subst m; reflexivity. }
  intros res ev. subst res ev. rewrite Hscan.
  rewrite (Evaluate_ext w (snoozes db) (clock w)
             (set_FailingSLA (FailsSLA w db shown) shown) shown)
    by reflexivity.
  repeat split.
Qed.

(** The three properties of the evaluator, read off the listing. *)
Corollary listed_verdict (w : world) (db : database) (row : reservation_row) :
  let res := scan_reservation w db row in
  ((exists s, In s (snoozes db) /\ z_app s = app row /\
              z_component s = component row /\ clock w < expiry s) ->
   FailingSLA res = false) /\
  (activeSnooze (snoozes db) res (clock w) = None -> 0 <= frequency row ->
   (FailingSLA res = true <->
    clock w - last_checkin_timestamp row
    > frequency row * unitSeconds (time_units row))) /\
  (clock w - last_checkin_timestamp row < 0 ->
   FailingSLA res = false /\ TimeSinceLastCheckin res = "just now").
Proof.
  intros res.
  destruct (scan_reservation_evaluated w db row)
    as (Ha & Hc & Hf & Hu & Hl & _ & Hfail & Hphrase).
  fold res in Ha, Hc, Hf, Hu, Hl, Hfail, Hphrase.
  rewrite Hfail, Hphrase, <- Hf, <- Hu, <- Hl, <- Ha, <- Hc.
  split; [|split].
  - intros (s & Hin & Hsa & Hsc & He).
    assert (Hs : suppresses res (clock w) s = true) by now apply suppresses_iff.
    destruct (activeSnooze_finds res (clock w) (snoozes db) s Hin Hs)
      as (s' & -> & Hs').
    now apply Evaluate_suppressed.
  - intros Hnone Hfreq.
    rewrite Hnone, (Evaluate_unsuppressed w res (clock w) None I).
    pose proof (unitSeconds_nonneg (TimeUnits res)) as Hunit.
    destruct (clock w - LastCheckin res <? 0) eqn:E.
    + apply Z.ltb_lt in E. split; [discriminate|]. nia.
    + rewrite Z.gtb_gt. lia.
  - intros Hneg. apply Z.ltb_lt in Hneg.
    unfold Evaluate, RelTime. simpl. rewrite Hneg. split; [|reflexivity].
    destruct (activeSnooze (snoozes db) res (clock w)) as [s|];
      [destruct (suppresses res (clock w) s)|]; reflexivity.
Qed.

(** Adjacent elements of a list sorted for [R] are related by [R]. *)
Lemma Sorted_adjacent {A} (R : relation A) (l : list A) :
  Sorted R l ->
  forall (i : nat) (a b : A), l !! i = Some a -> l !! S i = Some b -> R a b.
Proof.
  induction 1 as [|x l Hs IH Hhd]; intros i a b Ha Hb.
  - discriminate.
  - destruct i as [|i]; simpl in Ha, Hb.
    + injection Ha as <-. destruct Hhd as [|y l' Hxy]; [discriminate|].
      simpl in Hb. now injection Hb as <-.
    + eauto.
Qed.

(** C9.  With a store driver that does not fail, listing the
    reservations returns the stored reservations, each scanned from its
    row, ordered by recency of the last checkin: of two adjacent elements
    the earlier one has the greater or equal [LastCheckin]. *)
Theorem reservations_by_recency (w : world) (db : database) :
  healthy w ->
  exists rs : list reservation,
    getReservations w db = Ok rs /\
    rs ≡ₚ (scan_reservation w db <$> reservations db) /\
    forall (i : nat) (a b : reservation),
      rs !! i = Some a -> rs !! S i = Some b ->
      LastCheckin b <= LastCheckin a.
Proof.
  intros Hw. eexists. split; [now apply getReservations_healthy|]. split.
  - now rewrite merge_sort_Permutation.
  - intros i a b Ha Hb.
    rewrite list_lookup_fmap in Ha, Hb.
    destruct (merge_sort recent_first (reservations db) !! i) as [ra|] eqn:Ea;
      [|discriminate].
    destruct (merge_sort recent_first (reservations db) !! S i) as [rb|] eqn:Eb;
      [|discriminate].
    simpl in Ha, Hb. injection Ha as <-. injection Hb as <-.
    rewrite !scan_reservation_LastCheckin.
    exact (Sorted_adjacent recent_first _
             (Sorted_merge_sort recent_first (reservations db)) i ra rb Ea Eb).
Qed.

Lemma healthy_world_at (now : Z) (faults : store_op -> bool) :
  healthy (world_at now faults).
Proof. split; [reflexivity|]. intros i. reflexivity. Qed.

Lemma reservations_by_recency_witness :
  healthy (world_at 1000 no_fault) /\
  (LastCheckin <$> match getReservations (world_at 1000 no_fault) cluster with
                   | Ok rs => rs
                   | Err _ => []
                   end) = [900; 100] /\
  exists rs : list reservation,
    getReservations (world_at 1000 no_fault) cluster = Ok rs /\
    rs ≡ₚ (scan_reservation (world_at 1000 no_fault) cluster
             <$> reservations cluster) /\
    forall (i : nat) (a b : reservation),
      rs !! i = Some a -> rs !! S i = Some b ->
      LastCheckin b <= LastCheckin a.
Proof.
  split; [apply healthy_world_at|]. split; [vm_compute; reflexivity|].
  apply (reservations_by_recency (world_at 1000 no_fault) cluster).
  apply healthy_world_at.
Defined.

(** C10.  Every reservation the read path returns has the empty string
    as its [AlertMessage]: the scanned [alert_msg] is assigned only when
    it is NULL or empty, and then it is the empty string. *)
Theorem alert_message_never_listed (w : world) (db : database)
    (rs : list reservation) (r : reservation) :
  getReservations w db = Ok rs ->
  In r rs ->
  AlertMessage r = "".
Proof.
  intros H Hin. apply getReservations_inv in H. subst rs.
  apply list_elem_of_In, list_elem_of_fmap in Hin as (row & -> & _).
  apply scan_reservation_AlertMessage.
Qed.

Lemma alert_message_never_listed_witness :
  alert_msg svc_db = Some "db is down" /\
  exists r rest,
    getReservations (world_at 1000 no_fault) cluster = Ok (rest ++ [r]) /\
    JobID r = id svc_db /\
    AlertMessage r = "".
Proof.
  split; [reflexivity|].
  destruct (getReservations (world_at 1000 no_fault) cluster) as [rs|e] eqn:E;
    vm_compute in E; [|discriminate E].
  injection E as <-.
  eexists _, [_]. split; [reflexivity|]. split; [reflexivity|].
  eapply (alert_message_never_listed (world_at 1000 no_fault) cluster).
  - vm_compute. reflexivity.
  - right. left. reflexivity.
Defined.

(** ** Coordinator discovery *)

#[local] Instance by_id_total : Total by_id.
Proof. intros a b. unfold by_id. lia. Qed.

(** One turn of the loop of [getNodes] on a row that scans: the node is
    appended when its peer is reachable, and skipped otherwise. *)
Lemma getNodes_rows_step (w : world) (i : nat) (row : node_row)
    (rows : list node_row) (acc : list node) :
  scan_err w i = false ->
  getNodes_rows w i (row :: rows) acc
  = getNodes_rows w (S i) rows
      (if reachable w row then acc ++ [polled w row] else acc).
Proof.
  intros Hs. simpl. rewrite Hs. unfold reachable, polled. simpl.
  destruct (http_get w (is_coordinator_url (ip_address row)))
    as [|code body rerr]; [reflexivity|].
  destruct (code =? 200); simpl; [|reflexivity].
  destruct (String.eqb body "true"); reflexivity.
Qed.

Lemma getNodes_rows_healthy (w : world) (rows : list node_row) :
  (forall i, scan_err w i = false) ->
  forall (i : nat) (acc : list node),
    getNodes_rows w i rows acc = Ok (acc ++ (polled w <$> online w rows)).
Proof.
  intros Hscan. induction rows as [|row rows IH]; intros i acc.
  - simpl. now rewrite app_nil_r.
  - rewrite getNodes_rows_step by apply Hscan. rewrite IH.
    unfold online. simpl. destruct (reachable w row); [|reflexivity].
    simpl. now rewrite <- app_assoc.
Qed.

Lemma getNodes_healthy (w : world) (db : database) :
  healthy w ->
  getNodes w db = Ok (polled w <$> online w (merge_sort by_id (nodes db))).
Proof.
  intros [Hq Hs]. unfold getNodes, query_nodes. rewrite Hq.
  now rewrite getNodes_rows_healthy.
Qed.

Lemma online_offline_length (w : world) (rows : list node_row) :
  (length (online w rows) + length (offline w rows) = length rows)%nat.
Proof.
  unfold online, offline. induction rows as [|row rows IH]; simpl.
  - reflexivity.
  - destruct (reachable w row); simpl; lia.
Qed.

Lemma online_Permutation (w : world) (rows rows' : list node_row) :
  rows ≡ₚ rows' -> online w rows ≡ₚ online w rows'.
Proof.
  unfold online. induction 1 as [|x l l' _ IH|x y l|l l' l'' _ IH _ IH']; simpl.
  - reflexivity.
  - destruct (reachable w x); [constructor|]; exact IH.
  - destruct (reachable w x), (reachable w y);
      try reflexivity. apply perm_swap.
  - etransitivity; eassumption.
Qed.

(** Of three stored nodes, two of them unreachable, [getNodes] returns
    one entry: the unreachable nodes are not in the result. *)
Lemma unreachable_nodes_dropped :
  length (nodes cluster) = 3%nat /\
  length (offline (world_at 1000 no_fault) (nodes cluster)) = 2%nat /\
  getNodes (world_at 1000 no_fault) cluster
  = Ok [ {| ID := 1; IPAddress := "10.0.0.1"; NodeID := 0;
            IsCoordinator := true |} ] /\
  ~ exists ns, getNodes (world_at 1000 no_fault) cluster = Ok ns /\
               length ns = length (nodes cluster).
Proof.
  assert (E : getNodes (world_at 1000 no_fault) cluster
              = Ok [ {| ID := 1; IPAddress := "10.0.0.1"; NodeID := 0;
                        IsCoordinator := true |} ])
    by (vm_compute; reflexivity).
  split; [reflexivity|]. split; [vm_compute; reflexivity|].
  split; [exact E|].
  intros (ns & Hns & Hlen). rewrite E in Hns. injection Hns as <-.
  discriminate Hlen.
Qed.

(** C1, as the code has it.  With a store driver that does not fail and
    [N] stored nodes of which [M] are unreachable, [getNodes] does not
    fail: it returns the [N - M] reachable nodes, in the order of the
    query, each with [IsCoordinator] set exactly when the body of its
    answer is "true"; an unreachable node has no entry in the result. *)
Theorem reachable_nodes_listed (w : world) (db : database) :
  healthy w ->
  exists ns : list node,
    getNodes w db = Ok ns /\
    ns = (polled w <$> online w (merge_sort by_id (nodes db))) /\
    (length ns + length (offline w (nodes db)) = length (nodes db))%nat /\
    forall n : node,
      In n ns ->
      exists row, In row (nodes db) /\ reachable w row = true /\
                  n = polled w row.
Proof.
  intros Hw. eexists. split; [now apply getNodes_healthy|].
  split; [reflexivity|]. split.
  - rewrite length_fmap.
    rewrite (Permutation_length
               (online_Permutation w _ _ (merge_sort_Permutation by_id (nodes db)))).
    apply online_offline_length.
  - intros n Hn.
    apply list_elem_of_In, list_elem_of_fmap in Hn as (row & -> & Hrow).
    apply list_elem_of_In in Hrow. unfold online in Hrow.
    apply filter_In in Hrow as [Hin Hr].
    exists row. split; [|split; [exact Hr|reflexivity]].
    apply list_elem_of_In.
    rewrite <- (merge_sort_Permutation by_id (nodes db)).
    now apply list_elem_of_In.
Qed.

Lemma reachable_nodes_listed_witness :
  healthy (world_at 1000 no_fault) /\
  exists ns : list node,
    getNodes (world_at 1000 no_fault) cluster = Ok ns /\
    ns = (polled (world_at 1000 no_fault)
            <$> online (world_at 1000 no_fault) (merge_sort by_id (nodes cluster))) /\
    (length ns + length (offline (world_at 1000 no_fault) (nodes cluster))
     = length (nodes cluster))%nat /\
    forall n : node,
      In n ns ->
      exists row, In row (nodes cluster) /\
                  reachable (world_at 1000 no_fault) row = true /\
                  n = polled (world_at 1000 no_fault) row.
Proof.
  split; [apply healthy_world_at|].
  apply (reachable_nodes_listed (world_at 1000 no_fault) cluster).
  apply healthy_world_at.
Defined.

(** ** Checkins *)

Lemma existsb_find_none {A} (p : A -> bool) (l : list A) :
  existsb p l = false <-> find p l = None.
Proof.
  induction l as [|x l IH]; simpl; [tauto|].
  destruct (p x); simpl; [split; discriminate|exact IH].
Qed.

Lemma same_pair_touch (a c : string) (now : Z) (r : reservation_row) :
  same_pair a c (touch now r) = same_pair a c r.
Proof. reflexivity. Qed.

(** Touching the rows of a pair touches the row found for it. *)
Lemma lookup_pair_touched (a c : string) (now : Z) (tbl : list reservation_row) :
  lookup_pair a c ((fun r => if same_pair a c r then touch now r else r) <$> tbl)
  = touch now <$> lookup_pair a c tbl.
Proof.
  unfold lookup_pair. induction tbl as [|r tbl IH]; simpl; [reflexivity|].
  destruct (same_pair a c r) eqn:E.
  - rewrite same_pair_touch, E. reflexivity.
  - rewrite E. exact IH.
Qed.

Lemma lookup_pair_appended (a c : string) (tbl : list reservation_row)
    (row : reservation_row) :
  lookup_pair a c tbl = None -> same_pair a c row = true ->
  lookup_pair a c (tbl ++ [row]) = Some row.
Proof.
  unfold lookup_pair. intros Hnone Hrow.
  induction tbl as [|r tbl IH]; simpl in *.
  - now rewrite Hrow.
  - destruct (same_pair a c r); [discriminate|]. now apply IH.
Qed.

Lemma same_pair_refl (r : reservation_row) :
  same_pair (app r) (component r) r = true.
Proof. unfold same_pair. now rewrite !String.eqb_refl. Qed.

(** A refused update returns the error. *)
Lemma storeCheckin_refused (w : world) (db : database) (c : checkin) (now : Z) :
  exec_err w OpStoreCheckin = true ->
  exists e, storeCheckin w db c now = Err e.
Proof. intros H. unfold storeCheckin. rewrite H. eauto. Qed.

(** An update that is not refused records the checkin, for a pair with a
    reservation and for a pair without one, and touches nothing else. *)
Lemma storeCheckin_records (w : world) (db : database) (c : checkin) (now : Z) :
  exec_err w OpStoreCheckin = false ->
  exists db1,
    storeCheckin w db c now = Ok db1 /\
    checkin_recorded c now db db1 /\
    housekeeping db1 = housekeeping db /\
    snoozes db1 = snoozes db /\ nodes db1 = nodes db.
Proof.
  intros H. unfold storeCheckin. rewrite H.
  destruct (existsb (same_pair (ci_App c) (ci_Component c)) (reservations db))
    eqn:E; eexists; (split; [reflexivity|]); (split; [|auto]).
  - unfold checkin_recorded, counted. simpl. rewrite lookup_pair_touched.
    destruct (lookup_pair (ci_App c) (ci_Component c) (reservations db))
      as [r|] eqn:Er.
    + exists (touch now r). auto.
    + apply existsb_find_none in Er.
      unfold lookup_pair in *. congruence.
  - apply existsb_find_none in E.
    unfold checkin_recorded, counted. simpl. fold (lookup_pair (ci_App c) (ci_Component c) (reservations db)) in E.
    rewrite E. eexists. split.
    + apply lookup_pair_appended; [exact E|]. apply same_pair_refl.
    + auto.
Qed.

Lemma logHouseKeeping_spec (w : world) (db : database) (c : checkin) (now : Z) :
  logHouseKeeping w db c now
  = if exec_err w OpLogHouseKeeping then Err "store: statement refused"
    else Ok (log_entry (ci_App c) (ci_Component c) now db).
Proof. reflexivity. Qed.

(** The update went through, the log append was refused: the checkin is
    in the table, the log is empty, and the caller is told it failed. *)
Lemma checkin_half_recorded :
  exists db',
    doCheckin (world_at 1000 log_down)
      (DecOk {| ci_App := "svc"; ci_Component := "db" |}) cluster
    = (db', Replied (writeResponse (refusal "Unable to save checkin: svc"))) /\
    (num_checkins <$> lookup_pair "svc" "db" (reservations cluster)) = Some 3 /\
    (num_checkins <$> lookup_pair "svc" "db" (reservations db')) = Some 4 /\
    (last_checkin_timestamp <$> lookup_pair "svc" "db" (reservations db'))
      = Some 1000 /\
    housekeeping db' = [].
Proof. eexists. vm_compute. repeat split. Qed.

(** C4, as the code has it.  A checkin is applied as two store
    operations in sequence, the update and then the log append.  When the
    update is refused, nothing is recorded and the caller is told the
    checkin failed.  When both go through, the timestamp, the counter and
    the log entry are recorded and the caller is told it succeeded.  When
    the update goes through and the log append is refused, the update
    stays recorded without a log entry and the caller is told it failed. *)
Theorem checkin_outcomes (w : world) (c : checkin) (db : database) :
  exists (db' : database) (r : payload),
    doCheckin w (DecOk c) db = (db', Replied (writeResponse r)) /\
    match exec_err w OpStoreCheckin, exec_err w OpLogHouseKeeping with
    | true, _ =>
        db' = db /\
        r = refusal ("Unable to save checkin: " +:+ ci_App c)
    | false, true =>
        checkin_recorded c (clock w) db db' /\
        housekeeping db' = housekeeping db /\
        r = refusal ("Unable to save checkin: " +:+ ci_App c)
    | false, false =>
        checkin_recorded c (clock w) db db' /\
        housekeeping db' = housekeeping db ++ [checkin_entry c (clock w)] /\
        r = success ("Application checked in: " +:+ ci_App c)
    end.
Proof.
  unfold doCheckin.
  destruct (exec_err w OpStoreCheckin) eqn:Es.
  - destruct (storeCheckin_refused w db c (clock w) Es) as [e ->].
    eexists _, _. split; [reflexivity|]. auto.
  - destruct (storeCheckin_records w db c (clock w) Es)
      as (db1 & -> & Hrec & Hlog & _).
    rewrite logHouseKeeping_spec.
    destruct (exec_err w OpLogHouseKeeping);
      eexists _, _; (split; [reflexivity|]).
    + auto.
    + split; [|split; [|reflexivity]].
      * destruct Hrec as (r & Hr & Hlast & Hnum). exists r. auto.
      * simpl. rewrite Hlog. reflexivity.
Qed.

(** C6.  When the store refuses nothing, a checkin for a pair that has no
    reservation is accepted: the caller is told it succeeded, and the
    store then holds a record for the pair with [num_checkins = 1] and
    the instant of the checkin. *)
Theorem first_checkin_accepted (w : world) (c : checkin) (db : database) :
  exec_err w OpStoreCheckin = false ->
  exec_err w OpLogHouseKeeping = false ->
  lookup_pair (ci_App c) (ci_Component c) (reservations db) = None ->
  exists (db' : database) (r : reservation_row),
    doCheckin w (DecOk c) db
    = (db', Replied (writeResponse
                       (success ("Application checked in: " +:+ ci_App c)))) /\
    lookup_pair (ci_App c) (ci_Component c) (reservations db') = Some r /\
    num_checkins r = 1 /\
    last_checkin_timestamp r = clock w.
Proof.
  intros Hs Hl Hnone. unfold doCheckin.
  destruct (storeCheckin_records w db c (clock w) Hs)
    as (db1 & -> & (r & Hr & Hlast & Hnum) & _).
  rewrite logHouseKeeping_spec, Hl.
  exists (log_entry (ci_App c) (ci_Component c) (clock w) db1), r.
  split; [reflexivity|]. split; [exact Hr|]. split; [|exact Hlast].
  unfold counted in Hnum. rewrite Hnone in Hnum. exact Hnum.
Qed.

Lemma first_checkin_accepted_witness :
  lookup_pair "new" "x" (reservations cluster) = None /\
  exists (db' : database) (r : reservation_row),
    doCheckin (world_at 1000 no_fault)
      (DecOk {| ci_App := "new"; ci_Component := "x" |}) cluster
    = (db', Replied (writeResponse (success "Application checked in: new"))) /\
    lookup_pair "new" "x" (reservations db') = Some r /\
    num_checkins r = 1 /\
    last_checkin_timestamp r = 1000.
Proof.
  split; [reflexivity|].
  apply (first_checkin_accepted (world_at 1000 no_fault)
           {| ci_App := "new"; ci_Component := "x" |} cluster);
    reflexivity.
Defined.

(** * Further properties of the read paths, the validators and the routes *)

(** ** Scanning *)

Lemma scans_ok_S (w : world) (i n : nat) :
  scans_ok w i (S n) = negb (scan_err w i) && scans_ok w (S i) n.
Proof. reflexivity. Qed.


(** The loop of [getNodes], whatever the driver does. *)
Lemma getNodes_rows_closed (w : world) (rows : list node_row) :
  forall (i : nat) (acc : list node),
    getNodes_rows w i rows acc
    = if scans_ok w i (length rows)
      then Ok (acc ++ (polled w <$> online w rows))
      else Err "sql: Scan error".
Proof.
  induction rows as [|row rows IH]; intros i acc.
  - simpl. now rewrite app_nil_r.
  - cbn [length]. rewrite scans_ok_S.
    destruct (scan_err w i) eqn:Es.
    + simpl. now rewrite Es.
    + rewrite getNodes_rows_step by exact Es. rewrite IH. simpl.
      destruct (scans_ok w (S i) (length rows)); [|reflexivity].
      unfold online. simpl. destruct (reachable w row); [|reflexivity].
      simpl. now rewrite <- app_assoc.
Qed.

Lemma getNodes_closed (w : world) (db : database) :
  getNodes w db
  = if query_err w then Err "sql: query failed"
    else if scans_ok w 0 (length (nodes db))
    then Ok (polled w <$> online w (merge_sort by_id (nodes db)))
    else Err "sql: Scan error".
Proof.
  unfold getNodes, query_nodes. destruct (query_err w); [reflexivity|].
  rewrite getNodes_rows_closed.
  now rewrite (Permutation_length (merge_sort_Permutation by_id (nodes db))).
Qed.






(** ** Coordinator discovery *)


#[local] Instance by_id_trans : Transitive by_id.
Proof. intros a b c. unfold by_id. lia. Qed.

Lemma StronglySorted_List_filter {A} (R : relation A) (f : A -> bool)
    (l : list A) :
  StronglySorted R l -> StronglySorted R (List.filter f l).
Proof.
  induction 1 as [|x l Hs IH Hx]; simpl; [constructor|].
  destruct (f x); [|exact IH]. constructor; [exact IH|].
  rewrite List.Forall_forall in *. intros y Hy.
  apply filter_In in Hy as [Hy _]. now apply Hx.
Qed.

Lemma getNodes_inv (w : world) (db : database) (ns : list node) :
  getNodes w db = Ok ns ->
  ns = (polled w <$> online w (merge_sort by_id (nodes db))).
Proof.
  rewrite getNodes_closed. destruct (query_err w); [discriminate|].
  destruct (scans_ok w 0 (length (nodes db))); [|discriminate].
  now intros [= <-].
Qed.

(** X2.  The nodes [getNodes] returns are in increasing order of [ID],
    and each of them carries the id, the address and the node id of a
    stored row whose peer answered with status 200. *)
Theorem getNodes_in_id_order (w : world) (db : database) (ns : list node) :
  getNodes w db = Ok ns ->
  StronglySorted (fun a b => ID a <= ID b) ns /\
  forall n, In n ns ->
    exists row code body rerr,
      In row (nodes db) /\
      ID n = n_id row /\ IPAddress n = ip_address row /\
      NodeID n = node_id row /\
      http_get w (is_coordinator_url (IPAddress n)) = GetResp code body rerr /\
      code = 200 /\
      IsCoordinator n = String.eqb body "true".
Proof.
  intros H. apply getNodes_inv in H. subst ns. split.
  - apply (StronglySorted_fmap (polled w) by_id); [intros a b Hab; exact Hab|].
    apply StronglySorted_List_filter.
    apply (StronglySorted_merge_sort by_id).
  - intros n Hn.
    apply list_elem_of_In, list_elem_of_fmap in Hn as (row & -> & Hrow).
    apply list_elem_of_In, filter_In in Hrow as [Hin Hr].
    assert (Hstored : In row (nodes db)).
    { apply list_elem_of_In.
      rewrite <- (merge_sort_Permutation by_id (nodes db)).
      now apply list_elem_of_In. }
    unfold reachable in Hr. unfold polled. simpl.
    destruct (http_get w (is_coordinator_url (ip_address row)))
      as [|code body rerr]; [discriminate|].
    exists row, code, body, rerr. apply Z.eqb_eq in Hr. auto 10.
Qed.

Lemma getNodes_in_id_order_witness :
  getNodes (world_at 1000 no_fault) cluster
  = Ok [ {| ID := 1; IPAddress := "10.0.0.1"; NodeID := 0;
            IsCoordinator := true |} ] /\
  StronglySorted (fun a b => ID a <= ID b)
    [ {| ID := 1; IPAddress := "10.0.0.1"; NodeID := 0;
         IsCoordinator := true |} ].
Proof.
  assert (E : getNodes (world_at 1000 no_fault) cluster
              = Ok [ {| ID := 1; IPAddress := "10.0.0.1"; NodeID := 0;
                        IsCoordinator := true |} ])
    by (vm_compute; reflexivity).
  split; [exact E|].
  exact (proj1 (getNodes_in_id_order (world_at 1000 no_fault) cluster _ E)).
Defined.

Lemma marshal_bool_true (b : bool) : String.eqb (marshal_bool b) "true" = b.
Proof. destruct b; reflexivity. Qed.

Lemma online_all (w : world) (rows : list node_row) :
  (forall row, In row rows -> reachable w row = true) ->
  online w rows = rows.
Proof.
  unfold online. induction rows as [|row rows IH]; intros H; simpl.
  - reflexivity.
  - rewrite (H row) by (left; reflexivity).
    f_equal. apply IH. intros r Hr. apply H. now right.
Qed.

(** X3.  In a cluster where every stored node answers the poll through
    its own [isCoordinator] handler, and the store driver does not fail,
    [getNodes] lists every stored node, in increasing order of id, with
    [IsCoordinator] equal to the flag that node holds. *)
Theorem sound_cluster_listed (w : world) (db : database)
    (flag : string -> bool) :
  healthy w ->
  (forall row, In row (nodes db) ->
     http_get w (is_coordinator_url (ip_address row))
     = peer_answer (flag (ip_address row))) ->
  exists ns,
    getNodes w db = Ok ns /\
    ns = ((fun row => node_with (flag (ip_address row)) row)
            <$> merge_sort by_id (nodes db)) /\
    length ns = length (nodes db).
Proof.
  intros Hw Hnet.
  assert (Hsorted : forall row, In row (merge_sort by_id (nodes db)) ->
                                In row (nodes db)).
  { intros row Hrow. apply list_elem_of_In.
    rewrite <- (merge_sort_Permutation by_id (nodes db)).
    now apply list_elem_of_In. }
  eexists. split; [now apply getNodes_healthy|].
  rewrite online_all.
  - split.
    + apply list_fmap_ext. intros i row Hrow.
      unfold polled, node_with.
      rewrite (Hnet row)
        by (apply Hsorted, list_elem_of_In, list_elem_of_lookup; eauto).
      unfold peer_answer, isCoordinator. simpl.
      now rewrite marshal_bool_true.
    + rewrite length_fmap.
      apply Permutation_length, merge_sort_Permutation.
  - intros row Hrow. unfold reachable.
    rewrite (Hnet row) by now apply Hsorted. reflexivity.
Qed.

Lemma sound_cluster_listed_witness :
  healthy sound_world /\
  exists ns,
    getNodes sound_world cluster = Ok ns /\
    ns = ((fun row => node_with (flags (ip_address row)) row)
            <$> merge_sort by_id (nodes cluster)) /\
    length ns = length (nodes cluster).
Proof.
  assert (Hw : healthy sound_world)
    by (split; [reflexivity|intros i; reflexivity]).
  split; [exact Hw|].
  apply (sound_cluster_listed sound_world cluster flags Hw).
  intros row [<- | [<- | [<- | []]]]; reflexivity.
Defined.

(** ** Listing the reservations *)





(** ** The bad guests *)

#[local] Instance most_first_total : Total most_first.
Proof. intros a b. unfold most_first. lia. Qed.














(** ** The validators *)

(** X7.  [validateSnooze] accepts a snooze exactly when its unit is one
    of the three recognised ones and its duration is not zero.  It
    returns the error with the empty message exactly when the unit is
    recognised and the duration is zero: an unrecognised unit is reported
    first, whatever the duration. *)
Theorem validateSnooze_accepts_iff (p : snooze) :
  (validateSnooze p = None <->
   recognised (sn_TimeUnits p) /\ sn_Duration p <> 0) /\
  (validateSnooze p = Some "" <->
   recognised (sn_TimeUnits p) /\ sn_Duration p = 0).
Proof.
  destruct (validateSnooze_spec p) as [Sin Sout].
  destruct (decide (recognised (sn_TimeUnits p))) as [Hr|Hr].
  - rewrite (Sin Hr).
    destruct (Z.eqb_spec (sn_Duration p) 0) as [Hd|Hd]; intuition congruence.
  - rewrite (Sout Hr). unfold invalid_time_units. intuition congruence.
Qed.

(** X8.  The two validators recognise the same units: on a reservation
    and a snooze with the same [timeUnits], the snooze having a duration
    other than zero, they return the same verdict. *)
Theorem validators_agree_on_units (res : reservation) (p : snooze) :
  TimeUnits res = sn_TimeUnits p ->
  sn_Duration p <> 0 ->
  validateReservation res = validateSnooze p.
Proof.
  intros Hu Hd.
  destruct (validateReservation_spec res) as [Rin Rout].
  destruct (validateSnooze_spec p) as [Sin Sout].
  rewrite Hu in Rin, Rout.
  destruct (decide (recognised (sn_TimeUnits p))) as [Hr|Hr].
  - rewrite (Rin Hr), (Sin Hr).
    destruct (Z.eqb_spec (sn_Duration p) 0); [contradiction|reflexivity].
  - now rewrite (Rout Hr), (Sout Hr).
Qed.

Lemma validators_agree_on_units_witness :
  validateReservation (request "svc" "db" "days" 5)
  = validateSnooze {| sn_App := "svc"; sn_Component := "db";
                      sn_Duration := 2; sn_TimeUnits := "days" |} /\
  validateReservation (request "svc" "db" "hours" 5)
  = validateSnooze {| sn_App := "svc"; sn_Component := "db";
                      sn_Duration := -2; sn_TimeUnits := "hours" |}.
Proof.
  split.
  - apply (validators_agree_on_units (request "svc" "db" "days" 5)
             {| sn_App := "svc"; sn_Component := "db"; sn_Duration := 2;
                sn_TimeUnits := "days" |}); [reflexivity|discriminate].
  - apply (validators_agree_on_units (request "svc" "db" "hours" 5)
             {| sn_App := "svc"; sn_Component := "db"; sn_Duration := -2;
                sn_TimeUnits := "hours" |}); [reflexivity|discriminate].
Defined.

(** ** The write handlers *)

(** X9.  A body that fails to decode stops [doCheckin], [doSnooze] and
    [doCheckOut]: the store is left as it was and the answer is a
    [success = false] naming the application decoded so far.  It does not
    stop [makeReservation], which validates and stores what was decoded
    as it does for a body that decodes. *)
Theorem undecodable_body (w : world) (db : database) (res : reservation)
    (c : checkin) (p : snooze) (o : checkOut) :
  doCheckin w (DecErr c) db
  = (db, Replied (writeResponse (verdict false ("Unable to checkin: " +:+ ci_App c)))) /\
  doSnooze w (DecErr p) db
  = (db, Replied (writeResponse (verdict false ("Unable to snooze: " +:+ sn_App p)))) /\
  doCheckOut w (DecErr o) db
  = (db, Replied (writeResponse (verdict false ("Unable to checkout: " +:+ co_App o)))) /\
  makeReservation w (DecErr res) db = makeReservation w (DecOk res) db /\
  (validateReservation res = None ->
   forall db', storeReservation w db res = Ok db' ->
   makeReservation w (DecErr res) db
   = (db', Replied (writeResponse (PString "OK")))).
Proof.
  repeat (split; [reflexivity|]).
  intros Hv db' Hs. unfold makeReservation. now rewrite Hv, Hs.
Qed.

Lemma undecodable_body_witness :
  validateReservation (request "svc" "api" "minutes" 5) = None /\
  exists db',
    storeReservation (world_at 1000 no_fault) cluster
      (request "svc" "api" "minutes" 5) = Ok db' /\
    makeReservation (world_at 1000 no_fault)
      (DecErr (request "svc" "api" "minutes" 5)) cluster
    = (db', Replied (writeResponse (PString "OK"))).
Proof.
  split; [reflexivity|].
  destruct (storeReservation (world_at 1000 no_fault) cluster
              (request "svc" "api" "minutes" 5)) as [db'|e] eqn:E;
    [|vm_compute in E; discriminate E].
  exists db'. split; [reflexivity|].
  apply (undecodable_body (world_at 1000 no_fault) cluster
           (request "svc" "api" "minutes" 5)
           {| ci_App := ""; ci_Component := "" |}
           {| sn_App := ""; sn_Component := ""; sn_Duration := 0;
              sn_TimeUnits := "" |}
           {| co_App := ""; co_Component := "" |}).
  - reflexivity.
  - exact E.
Defined.

(** X10.  Whatever [doCheckin] and [doCheckOut] answer, they answer with
    status 200 and a [Response] holding [success] and [message]: a
    request that failed is told so by [success = false], never by the
    status. *)
Theorem checkin_checkout_status (w : world) (db : database)
    (rc : decoded checkin) (ro : decoded checkOut) (r : reply) :
  (doCheckin w rc db).2 = Replied r \/ (doCheckOut w ro db).2 = Replied r ->
  status r = StatusOK /\
  exists (b : bool) (message : string), written r = verdict b message.
Proof.
  intros [H|H].
  - unfold doCheckin in H. destruct rc as [c| |c]; [|discriminate|].
    + destruct (storeCheckin w db c (clock w)) as [db1|e].
      * destruct (logHouseKeeping w db1 c (clock w)) as [db2|e];
          simpl in H; injection H as <-; (split; [reflexivity|]);
          eexists _, _; reflexivity.
      * simpl in H. injection H as <-. split; [reflexivity|].
        eexists _, _; reflexivity.
    + simpl in H. injection H as <-. split; [reflexivity|].
      eexists _, _; reflexivity.
  - unfold doCheckOut in H. destruct ro as [o| |o]; [|discriminate|].
    + destruct (storeCheckOut w db o) as [db1|e];
        simpl in H; injection H as <-; (split; [reflexivity|]);
        eexists _, _; reflexivity.
    + simpl in H. injection H as <-. split; [reflexivity|].
      eexists _, _; reflexivity.
Qed.

Lemma checkin_checkout_status_witness :
  exists r,
    (doCheckin (world_at 1000 log_down)
       (DecOk {| ci_App := "svc"; ci_Component := "db" |}) cluster).2
    = Replied r /\
    status r = StatusOK /\
    written r = verdict false "Unable to save checkin: svc".
Proof.
  destruct (doCheckin (world_at 1000 log_down)
              (DecOk {| ci_App := "svc"; ci_Component := "db" |}) cluster).2
    as [r|] eqn:E; [|vm_compute in E; discriminate E].
  exists r. split; [reflexivity|].
  destruct (checkin_checkout_status (world_at 1000 log_down) cluster
              (DecOk {| ci_App := "svc"; ci_Component := "db" |})
              DecNil r (or_introl E)) as [Hs _].
  split; [exact Hs|].
  vm_compute in E. injection E as <-. reflexivity.
Defined.

(** X11.  Whatever [makeReservation] answers, it answers with a bare
    string; the status is 200 exactly when the string is "OK", and 400
    otherwise, for a validation failure as for a refusal of the store. *)
Theorem makeReservation_status (w : world) (db : database)
    (req : decoded reservation) (r : reply) :
  (makeReservation w req db).2 = Replied r ->
  exists s : string,
    written r = PString s /\
    (status r = StatusOK <-> s = "OK") /\
    (status r = StatusOK \/ status r = StatusBadRequest).
Proof.
  assert (Hcase : forall res,
    (match validateReservation res with
     | Some err =>
         (db, Replied (writeError (PString
            ("Unable to store reservation, validation failure ["
               +:+ err +:+ "]"))))
     | None =>
         match storeReservation w db res with
         | Err _ =>
             (db, Replied (writeError (PString "Unable to store reservation")))
         | Ok db' => (db', Replied (writeResponse (PString "OK")))
         end
     end).2 = Replied r ->
    exists s : string,
      written r = PString s /\
      (status r = StatusOK <-> s = "OK") /\
      (status r = StatusOK \/ status r = StatusBadRequest)).
  { intros res H.
    destruct (validateReservation res) as [err|].
    - simpl in H. injection H as <-. eexists. split; [reflexivity|].
      split; [|right; reflexivity]. split; discriminate.
    - destruct (storeReservation w db res) as [db'|e];
        simpl in H; injection H as <-; eexists; (split; [reflexivity|]).
      + split; [|left; reflexivity]. split; reflexivity.
      + split; [|right; reflexivity]. split; discriminate. }
  intros H. destruct req as [res| |res]; [|discriminate|]; eauto.
Qed.

Lemma makeReservation_status_witness :
  exists r,
    (makeReservation (world_at 1000 no_fault)
       (DecOk (request "svc" "db" "minutes" 5)) cluster).2 = Replied r /\
    written r = PString "Unable to store reservation" /\
    status r = StatusBadRequest.
Proof.
  destruct (makeReservation (world_at 1000 no_fault)
              (DecOk (request "svc" "db" "minutes" 5)) cluster).2
    as [r|] eqn:E; [|vm_compute in E; discriminate E].
  exists r. split; [reflexivity|].
  destruct (makeReservation_status (world_at 1000 no_fault) cluster
              (DecOk (request "svc" "db" "minutes" 5)) r E)
    as (s & Hs & _ & _).
  vm_compute in E. injection E as <-. split; reflexivity.
Defined.

(** ** The routes *)

Section Routes.
Context {body : Type} (dec : decoder body) (p : process) (w : world)
  (alerts : list alert_row).

(** X12.  A request changes the store only when it is a POST on one of
    the four write routes: every other method, and every other path,
    leaves the store as it was. *)
Theorem only_post_changes_store (r : Request body) (db : database) :
  (InitAPI dec p w alerts r db).1 <> db ->
  Method r = "POST" /\ In (Path r) write_routes.
Proof.
  unfold InitAPI, write_routes. intros H.
  destruct (String.eqb_spec (Path r) "/status") as [Hp|_].
  { exfalso. apply H. destruct (String.eqb (Method r) "GET"); [|reflexivity].
    destruct (getReservations w db); reflexivity. }
  destruct (String.eqb_spec (Path r) "/badguests") as [Hp|_].
  { exfalso. apply H. destruct (String.eqb (Method r) "GET"); [|reflexivity].
    destruct (getBadGuests w alerts); reflexivity. }
  destruct (String.eqb_spec (Path r) "/nodes") as [Hp|_].
  { exfalso. apply H. destruct (String.eqb (Method r) "GET"); [|reflexivity].
    destruct (getNodes w db); reflexivity. }
  destruct (String.eqb_spec (Path r) "/reservation") as [Hp|_].
  { destruct (String.eqb_spec (Method r) "GET") as [Hm|_];
      [exfalso; apply H; reflexivity|].
    destruct (String.eqb_spec (Method r) "POST") as [Hm|_];
      [|exfalso; apply H; reflexivity].
    rewrite Hp. split; [exact Hm|]. in_list. }
  destruct (String.eqb_spec (Path r) "/checkin") as [Hp|_].
  { destruct (String.eqb_spec (Method r) "POST") as [Hm|_];
      [|exfalso; apply H; reflexivity].
    rewrite Hp. split; [exact Hm|]. in_list. }
  destruct (String.eqb_spec (Path r) "/checkout") as [Hp|_].
  { destruct (String.eqb_spec (Method r) "POST") as [Hm|_];
      [|exfalso; apply H; reflexivity].
    rewrite Hp. split; [exact Hm|]. in_list. }
  destruct (String.eqb_spec (Path r) "/snooze") as [Hp|_].
  { destruct (String.eqb_spec (Method r) "POST") as [Hm|_];
      [|exfalso; apply H; reflexivity].
    rewrite Hp. split; [exact Hm|]. in_list. }
  exfalso. apply H.
  destruct (String.eqb (Path r) "/is-coordinator");
    destruct (String.eqb (Method r) "GET"); reflexivity.
Qed.

(** X13.  On the routes [/reservation], [/checkin], [/checkout],
    [/snooze] and [/is-coordinator], a method the route does not serve is
    answered with status 400 and the message "Invalid method" followed by
    the method, and the store is left as it was. *)
Theorem wrong_method_rejected (r : Request body) (db : database) :
  In (Path r) strict_routes ->
  serves (Path r) (Method r) = false ->
  InitAPI dec p w alerts r db = (db, invalid_method (Method r)).
Proof.
  unfold strict_routes, serves, InitAPI.
  intros [Hp | [Hp | [Hp | [Hp | [Hp | []]]]]] Hm;
    rewrite <- Hp in Hm |- *; simpl in Hm |- *.
  - apply orb_false_iff in Hm as [-> ->]. reflexivity.
  - now rewrite Hm.
  - now rewrite Hm.
  - now rewrite Hm.
  - now rewrite Hm.
Qed.



(** X16.  A GET on [/nodes] never reports a peer that cannot be reached
    as an error: with a driver that does not fail, the answer is the
    page of the nodes [getNodes] returns when the template parses, and
    nothing at all when it does not. *)
Theorem nodes_page (r : Request body) (db : database) :
  Path r = "/nodes" -> Method r = "GET" -> healthy w ->
  InitAPI dec p w alerts r db
  = (db, if parses p (htmlPath p +:+ "/public/nodes.html")
         then Page (htmlPath p +:+ "/public/nodes.html")
                (ViewNodes (polled w <$> online w (merge_sort by_id (nodes db))))
         else Blank).
Proof.
  intros Hp Hm Hw. unfold InitAPI. rewrite Hp, Hm. simpl.
  rewrite (getNodes_healthy w db Hw). reflexivity.
Qed.
End Routes.

Lemma only_post_changes_store_witness :
  (InitAPI checkin_only here (world_at 1000 no_fault) alert_log
     {| Method := "POST"; Path := "/checkin";
        Body := DecOk {| ci_App := "new"; ci_Component := "x" |} |}
     cluster).1 <> cluster /\
  In "/checkin" write_routes.
Proof.
  assert (H : (InitAPI checkin_only here (world_at 1000 no_fault) alert_log
                 {| Method := "POST"; Path := "/checkin";
                    Body := DecOk {| ci_App := "new"; ci_Component := "x" |} |}
                 cluster).1 <> cluster)
    by (vm_compute; intros E; discriminate E).
  split; [exact H|].
  exact (proj2 (only_post_changes_store checkin_only here
                  (world_at 1000 no_fault) alert_log _ cluster H)).
Defined.

Lemma wrong_method_rejected_witness :
  serves "/checkin" "GET" = false /\
  InitAPI checkin_only here (world_at 1000 no_fault) alert_log
    {| Method := "GET"; Path := "/checkin";
       Body := DecOk {| ci_App := "svc"; ci_Component := "db" |} |} cluster
  = (cluster, invalid_method "GET").
Proof.
  split; [reflexivity|].
  apply (wrong_method_rejected checkin_only here (world_at 1000 no_fault)
           alert_log
           {| Method := "GET"; Path := "/checkin";
              Body := DecOk {| ci_App := "svc"; ci_Component := "db" |} |}).
  - right; left; reflexivity.
  - reflexivity.
Defined.



Lemma nodes_page_witness :
  healthy (world_at 1000 no_fault) /\
  InitAPI checkin_only here (world_at 1000 no_fault) alert_log
    {| Method := "GET"; Path := "/nodes";
       Body := DecOk {| ci_App := "svc"; ci_Component := "db" |} |} cluster
  = (cluster,
     Page "/srv/gotel/public/nodes.html"
       (ViewNodes [ {| ID := 1; IPAddress := "10.0.0.1"; NodeID := 0;
                       IsCoordinator := true |} ])).
Proof.
  split; [apply healthy_world_at|].
  rewrite (nodes_page checkin_only here (world_at 1000 no_fault) alert_log
             {| Method := "GET"; Path := "/nodes";
                Body := DecOk {| ci_App := "svc"; ci_Component := "db" |} |}
             cluster eq_refl eq_refl (healthy_world_at 1000 no_fault)).
  vm_compute. reflexivity.
Defined.
